(** * Multi-AI-Chat: the turn orchestrator and its session service

    A shallow embedding of the conversation core of the application:
    - [Service]: services/geminiService.ts (provider detection, the session
      store, [initializeChats], [generateResponse], [generateMeetingSummary]);
    - [App]: the state and the handlers of the App component
      ([handleStart], [handleStop], [handleReset], [handleUserSubmit], the
      orchestration effect [processTurn], the summary effect and
      [buildLocalSummary]).

    Conventions.  A JavaScript string is a [string]; its characters are the
    code units of the model (bytes), which agrees with JavaScript on the ASCII
    range; the Japanese literals of the source are kept verbatim.  A React
    state cell is a record field, a handler is a function from the state it
    closes over to the state after its updates have been applied in order.
    Everything the network does is an input of the model ([External]).
    A message's [id] and [timestamp] come from [safeRandomId] and [Date.now]
    when it is appended and are read by the renderer only; the model leaves
    them out.  The 1500 ms pacing delay of a turn is not modelled. *)

From Stdlib Require Import ZArith Ascii String List Bool Lia.
From stdpp Require Import base strings gmap list pretty.

Local Open Scope string_scope.
Local Open Scope Z_scope.

(** ** JavaScript helpers *)

Module Js.

Definition nl : string := String (ascii_of_nat 10) EmptyString.
Definition dquote : string := String (ascii_of_nat 34) EmptyString.

(** The class [\s] on the ASCII range: space, and TAB to CR. *)
Definition is_space (c : ascii) : bool :=
  let n := nat_of_ascii c in
  (n =? 32)%nat || ((9 <=? n)%nat && (n <=? 13)%nat).

Fixpoint trimStart (s : string) : string :=
  match s with
  | EmptyString => EmptyString
  | String c s' => if is_space c then trimStart s' else s
  end.

Fixpoint trimEnd (s : string) : string :=
  match s with
  | EmptyString => EmptyString
  | String c s' =>
      match trimEnd s' with
      | EmptyString => if is_space c then EmptyString else String c EmptyString
      | t => String c t
      end
  end.

(** [s.trim()] *)
Definition trim (s : string) : string := trimEnd (trimStart s).

(** Truthiness of a string: every string but the empty one. *)
Definition truthy (s : string) : bool :=
  match s with EmptyString => false | String _ _ => true end.

(** [a || b] on strings. *)
Definition or_else (a b : string) : string := if truthy a then a else b.

(** [a || b] where [a] may be [undefined]. *)
Definition opt_or_else (a : option string) (b : string) : string :=
  match a with Some s => or_else s b | None => b end.

(** [s.startsWith(p)] *)
Definition startsWith (s p : string) : bool := String.prefix p s.

Definition lower_ascii (c : ascii) : ascii :=
  let n := nat_of_ascii c in
  if ((65 <=? n)%nat && (n <=? 90)%nat) then ascii_of_nat (n + 32) else c.

(** [s.toLowerCase()] *)
Fixpoint toLowerCase (s : string) : string :=
  match s with
  | EmptyString => EmptyString
  | String c s' => String (lower_ascii c) (toLowerCase s')
  end.

(** [s.replace(/\s+/g, ' ')]: every maximal run of white space becomes one
    space. *)
Fixpoint collapseSpaces (s : string) : string :=
  match s with
  | EmptyString => EmptyString
  | String c s' =>
      if is_space c then
        match s' with
        | String c' _ =>
            if is_space c' then collapseSpaces s'
            else String " "%char (collapseSpaces s')
        | EmptyString => String " "%char EmptyString
        end
      else String c (collapseSpaces s')
  end.

(** [s.slice(0, n)] *)
Fixpoint slice0 (n : nat) (s : string) : string :=
  match n, s with
  | S n', String c s' => String c (slice0 n' s')
  | _, _ => EmptyString
  end.

(** [l.slice(-n)]: the last [n] elements, all of them when there are fewer. *)
Definition sliceLast {A : Type} (n : nat) (l : list A) : list A :=
  drop (length l - n) l.

(** [l.join(sep)] *)
Fixpoint join (sep : string) (l : list string) : string :=
  match l with
  | [] => EmptyString
  | [x] => x
  | x :: rest => x +:+ sep +:+ join sep rest
  end.

Fixpoint findIndex_from {A : Type} (p : A -> bool) (i : Z) (l : list A) : Z :=
  match l with
  | [] => -1
  | x :: rest => if p x then i else findIndex_from p (i + 1) rest
  end.

(** [l.findIndex(p)]: the index of the first match, -1 without one. *)
Definition findIndex {A : Type} (p : A -> bool) (l : list A) : Z :=
  findIndex_from p 0 l.

(** [l[i]] for a numeric index: [undefined] out of range. *)
Definition at_index {A : Type} (l : list A) (i : Z) : option A :=
  if i <? 0 then None else l !! Z.to_nat i.

(** An [Error] object, as far as the code reads it: its message. *)
Record Error := mkError { message : string }.

(** How a call completes: with a value, or by throwing. *)
Inductive Completion (A : Type) : Type :=
| Return (a : A)
| Throw (e : Error).
Global Arguments Return {A} a.
Global Arguments Throw {A} e.

Definition throws {A : Type} (c : Completion A) : bool :=
  match c with Throw _ => true | Return _ => false end.

(** Parsed JSON, and what property access sees of it. *)
Local Unset Elimination Schemes.
Inductive JSON : Type :=
| JNull
| JBool (b : bool)
| JNum (n : Z)
| JStr (s : string)
| JArr (items : list JSON)
| JObj (fields : list (string * JSON)).
Local Set Elimination Schemes.

Fixpoint assoc (k : string) (fields : list (string * JSON)) : option JSON :=
  match fields with
  | [] => None
  | (k', v) :: rest => if String.eqb k k' then Some v else assoc k rest
  end.

(** [v?.name] for a name that no prototype defines: [None] is [undefined]. *)
Definition prop (name : string) (v : option JSON) : option JSON :=
  match v with
  | Some (JObj fields) => assoc name fields
  | _ => None
  end.

(** [v?.[0]] *)
Definition first (v : option JSON) : option JSON :=
  match v with
  | Some (JArr items) => head items
  | Some (JStr (String c _)) => Some (JStr (String c EmptyString))
  | Some (JObj fields) => assoc "0" fields
  | _ => None
  end.

(** [v?.trim()]: [undefined] on a nullish value, the trimmed text of a
    string, a TypeError on anything else (no [trim] to call). *)
Definition optTrim (v : option JSON) : Completion (option string) :=
  match v with
  | None | Some JNull => Return None
  | Some (JStr s) => Return (Some (trim s))
  | Some _ => Throw (mkError "trim is not a function")
  end.

End Js.

(** ** types.ts *)

Inductive AgentColor := cyan | pink | emerald | amber | violet.

Record AgentConfig := mkAgent {
  agent_id : string;
  agent_name : string;
  systemPrompt : string;
  color : AgentColor;
  avatarEmoji : string
}.

(** [senderId] is an agent id or one of the reserved names. *)
Record Message := mkMessage {
  senderId : string;
  text : string
}.

Inductive LLMProvider :=
| gemini | openai | groq | perplexity | openrouter | openai_compatible.

Inductive ChatStatus := IDLE | ACTIVE | PAUSED | COMPLETED | ERROR.

Record AppConfig := mkConfig {
  apiKey : string;
  provider : LLMProvider;
  model : string;
  agents : list AgentConfig;
  topic : string;
  maxTurns : Z;
  globalRules : string
}.

Global Instance LLMProvider_eq_dec : EqDecision LLMProvider.
Proof. solve_decision. Defined.

Global Instance ChatStatus_eq_dec : EqDecision ChatStatus.
Proof. solve_decision. Defined.

Global Instance Message_eq_dec : EqDecision Message.
Proof. solve_decision. Defined.

(** ** services/geminiService.ts *)

Module Service.
Import Js.

(** Simple provider detection based on API key format. *)
Definition detectProviderFromApiKey (apiKey : string) : LLMProvider :=
  let trimmed := trim apiKey in
  if negb (truthy trimmed) then gemini
  else
    let lower := toLowerCase trimmed in
    if startsWith trimmed "AIza" || startsWith lower "ya29." then gemini
    else if startsWith trimmed "gsk_" then groq
    else if startsWith trimmed "pplx-" then perplexity
    else if startsWith trimmed "sk-or-" || startsWith trimmed "or-" then openrouter
    else if startsWith trimmed "sk-" then openai
    else openai_compatible.

Record ModelOption := mkOption { option_id : string; option_name : string }.

Definition PROVIDER_MODEL_OPTIONS (p : LLMProvider) : list ModelOption :=
  match p with
  | gemini =>
      [ mkOption "gemini-2.5-flash" "Gemini 2.5 Flash";
        mkOption "gemini-2.0-flash" "Gemini 2.0 Flash";
        mkOption "gemini-2.0-flash-lite-preview-02-04" "Gemini 2.0 Flash Lite";
        mkOption "gemini-1.5-pro" "Gemini 1.5 Pro";
        mkOption "gemini-1.5-flash" "Gemini 1.5 Flash" ]
  | openai =>
      [ mkOption "gpt-4o-mini" "GPT-4o Mini"; mkOption "gpt-4o" "GPT-4o" ]
  | groq =>
      [ mkOption "llama-3.3-70b-versatile" "Llama 3.3 70B Versatile";
        mkOption "mixtral-8x7b-32768" "Mixtral 8x7B" ]
  | perplexity =>
      [ mkOption "llama-3.1-sonar-large-128k-chat" "Llama 3.1 Sonar Large";
        mkOption "llama-3.1-70b-instruct" "Llama 3.1 70B Instruct" ]
  | openrouter =>
      [ mkOption "gpt-4o-mini" "GPT-4o Mini (via OpenRouter)";
        mkOption "deepseek-chat" "DeepSeek Chat" ]
  | openai_compatible =>
      [ mkOption "gpt-4o-mini" "GPT-4o Mini";
        mkOption "gpt-3.5-turbo" "GPT-3.5 Turbo" ]
  end.

(** [PROVIDER_MODEL_OPTIONS[provider][0].id]; every catalog is a non-empty
    literal, the empty case is never taken. *)
Definition getDefaultModelForProvider (p : LLMProvider) : string :=
  match PROVIDER_MODEL_OPTIONS p with
  | o :: _ => option_id o
  | [] => EmptyString
  end.

Definition PROVIDER_ENDPOINTS (p : LLMProvider) : option string :=
  match p with
  | gemini => None
  | openai | openai_compatible => Some "https://api.openai.com/v1/chat/completions"
  | groq => Some "https://api.groq.com/openai/v1/chat/completions"
  | perplexity => Some "https://api.perplexity.ai/chat/completions"
  | openrouter => Some "https://openrouter.ai/api/v1/chat/completions"
  end.

Inductive Role := system | user | assistant.

Record OpenAIMessage := mkOA { role : Role; content : string }.

(** The SDK's [Chat] object, as this code makes it: the client's key, the
    model and the system instruction.  The turns it has seen are kept inside
    the SDK and are not visible to this code. *)
Record Chat := mkChat {
  chat_apiKey : string;
  chat_model : string;
  systemInstruction : string
}.

(** The module's mutable bindings. *)
Record State := mkState {
  chatSessions : gmap string Chat;
  openAISessions : gmap string (list OpenAIMessage);
  activeProvider : LLMProvider;
  activeModel : string;
  activeApiKey : string
}.

Definition initial : State := mkState ∅ ∅ gemini EmptyString EmptyString.

(** A computation over the module's bindings that may throw; the bindings
    keep the value they had when it threw. *)
Definition M (A : Type) : Type := State -> Completion A * State.

Definition ret {A : Type} (a : A) : M A := fun st => (Return a, st).
Definition throw {A : Type} (msg : string) : M A := fun st => (Throw (mkError msg), st).
Definition rethrow {A : Type} (e : Error) : M A := fun st => (Throw e, st).
Definition get : M State := fun st => (Return st, st).
Definition modify (f : State -> State) : M unit := fun st => (Return tt, f st).

Global Instance M_bind : MBind M := fun A B k c st =>
  match c st with
  | (Return a, st') => k a st'
  | (Throw e, st') => (Throw e, st')
  end.

Definition set_provider (p : LLMProvider) (st : State) : State :=
  mkState (chatSessions st) (openAISessions st) p (activeModel st) (activeApiKey st).
Definition set_model (m : string) (st : State) : State :=
  mkState (chatSessions st) (openAISessions st) (activeProvider st) m (activeApiKey st).
Definition set_apiKey (k : string) (st : State) : State :=
  mkState (chatSessions st) (openAISessions st) (activeProvider st) (activeModel st) k.
Definition set_chatSessions (m : gmap string Chat) (st : State) : State :=
  mkState m (openAISessions st) (activeProvider st) (activeModel st) (activeApiKey st).
Definition set_openAISessions (m : gmap string (list OpenAIMessage)) (st : State) : State :=
  mkState (chatSessions st) m (activeProvider st) (activeModel st) (activeApiKey st).

(** The persona text of a session: the agent's prompt, a labelled separator,
    the global rules. *)
Definition combinedSystemInstruction (agent : AgentConfig) (globalRules : string) : string :=
  nl +:+ systemPrompt agent +:+ nl +:+ nl +:+
  "【会議全体の重要ルール】" +:+ nl +:+ globalRules +:+ nl.

(** [agents.forEach(agent => ...)] over the bindings. *)
Fixpoint forEach (agents : list AgentConfig) (body : AgentConfig -> M unit) : M unit :=
  match agents with
  | [] => ret tt
  | agent :: rest => body agent ;; forEach rest body
  end.

(** What follows the credential check, for the key [key] kept as the active
    one and the key [clientKey] given to the SDK client. *)
Definition installSessions (key clientKey modelName : string)
    (agents : list AgentConfig) (globalRules : string) : M unit :=
  modify (set_provider (detectProviderFromApiKey key)) ;;
  st ← get ;
  modify (set_model (or_else modelName (getDefaultModelForProvider (activeProvider st)))) ;;
  modify (set_apiKey key) ;;
  (* Clear previous sessions *)
  modify (set_chatSessions ∅) ;;
  modify (set_openAISessions ∅) ;;
  st ← get ;
  if decide (activeProvider st = gemini) then
    forEach agents (fun agent =>
      st ← get ;
      modify (set_chatSessions
        (<[agent_id agent :=
             mkChat clientKey (activeModel st)
               (combinedSystemInstruction agent globalRules)]> (chatSessions st))))
  else
    forEach agents (fun agent =>
      st ← get ;
      modify (set_openAISessions
        (<[agent_id agent :=
             [mkOA system (combinedSystemInstruction agent globalRules)]]>
           (openAISessions st)))).

(** [initializeChats], the current revision (the key is trimmed first). *)
Definition initializeChats (apiKey modelName : string)
    (agents : list AgentConfig) (globalRules : string) : M unit :=
  let normalizedKey := trim apiKey in
  if negb (truthy normalizedKey) then throw "API Key is required"
  else installSessions normalizedKey apiKey modelName agents globalRules.

(** [initializeChats], the earlier revision kept in the same file: the key
    is tested and stored as given. *)
Definition initializeChats_v1 (apiKey modelName : string)
    (agents : list AgentConfig) (globalRules : string) : M unit :=
  if negb (truthy apiKey) then throw "API Key is required"
  else installSessions apiKey apiKey modelName agents globalRules.

(** *** The network, as the service sees it *)

(** [session.sendMessage] of the SDK: it throws, or gives a result whose
    [text] may be missing. *)
Inductive SendOutcome :=
| SendThrows (e : Error)
| SendResult (result_text : option string).

(** [response.text()] and [response.json()] *)
Inductive TextOutcome := TextThrows (e : Error) | TextBody (body : string).
Inductive JsonOutcome := JsonThrows (e : Error) | JsonBody (data : JSON).

(** [fetch]: the promise rejects (transport failure), or resolves with a
    response whose [ok] is false, or with one whose [ok] is true. *)
Inductive FetchOutcome :=
| FetchRejects (e : Error)
| FetchNotOk (status : Z) (body : TextOutcome)
| FetchOk (body : JsonOutcome).

Record FetchRequest := mkRequest {
  endpoint : string;
  bearer : string;
  openrouterHeaders : bool;
  body_model : string;
  body_messages : list OpenAIMessage;
  body_temperature_tenths : Z
}.

Record External := mkExternal {
  sendMessage : Chat -> string -> SendOutcome;
  generateContent : string -> string -> string -> SendOutcome;
  fetch : FetchRequest -> FetchOutcome
}.

Definition endpointFor (p : LLMProvider) : string :=
  match PROVIDER_ENDPOINTS p with
  | Some url => url
  | None => "https://api.openai.com/v1/chat/completions"
  end.

Definition NO_RESPONSE : string := "[No response generated]".

(** [data?.choices?.[0]?.message?.content?.trim()] *)
Definition firstChoiceContent (data : JSON) : Completion (option string) :=
  optTrim (prop "content" (prop "message" (first (prop "choices" (Some data))))).

(** The request of a chat completion, sent to the endpoint of [p]. *)
Definition chatRequest (p : LLMProvider) (key modelName : string)
    (msgs : list OpenAIMessage) (tenths : Z) : FetchRequest :=
  mkRequest (endpointFor p) key
    (bool_decide (p = openrouter))
    (or_else modelName (getDefaultModelForProvider openai))
    msgs tenths.

(** [generateResponse]; its [catch] logs and rethrows the error unchanged. *)
Definition generateResponse (ext : External) (agentId inputMessage : string) : M string :=
  st ← get ;
  if decide (activeProvider st = gemini) then
    match chatSessions st !! agentId with
    | None => throw ("Chat Session for agent " +:+ agentId +:+ " not initialized")
    | Some session =>
        match sendMessage ext session inputMessage with
        | SendThrows e => rethrow e
        | SendResult result_text => ret (opt_or_else result_text NO_RESPONSE)
        end
    end
  else
    match openAISessions st !! agentId with
    | None => throw ("Chat Session for agent " +:+ agentId +:+ " not initialized")
    | Some messages =>
        let request :=
          chatRequest (activeProvider st) (activeApiKey st) (activeModel st)
            (messages ++ [mkOA user inputMessage])%list 7 in
        match fetch ext request with
        | FetchRejects e => rethrow e
        | FetchNotOk status (TextThrows e) => rethrow e
        | FetchNotOk status (TextBody body) =>
            throw ("OpenAI API error (" +:+ pretty status +:+ "): " +:+ body)
        | FetchOk (JsonThrows e) => rethrow e
        | FetchOk (JsonBody data) =>
            match firstChoiceContent data with
            | Throw e => rethrow e
            | Return trimmed =>
                let answer := opt_or_else trimmed NO_RESPONSE in
                modify (set_openAISessions
                  (<[agentId := (messages ++ [mkOA user inputMessage; mkOA assistant answer])%list]>
                     (openAISessions st))) ;;
                ret answer
            end
        end
    end.

(** The transcript of a summary request: one line per message that is not a
    SYSTEM one. *)
Definition summaryTranscript (messages : list Message) : string :=
  join nl
    (map (fun m =>
            let speaker :=
              if bool_decide (senderId m = "USER") then "User"
              else "Agent " +:+ senderId m in
            speaker +:+ ": " +:+ text m)
         (filter (fun m => senderId m ≠ "SYSTEM") messages)).

Definition summaryPrompt (messages : list Message) (topic globalRules : string) : string :=
  "以下の会話ログを読み、議事録を要約してください。" +:+ nl +:+
  "- トピック: " +:+ topic +:+ nl +:+
  "- ルール: " +:+ globalRules +:+ nl +:+
  "- 形式: 1) 決定事項 2) 未決事項 3) 宿題・担当 4) 次の一歩 を日本語で簡潔に箇条書き。" +:+ nl +:+ nl +:+
  "【会話ログ】" +:+ nl +:+ summaryTranscript messages.

Definition NO_SUMMARY : string := "要約を生成できませんでした。".

(** [generateMeetingSummary]; [provider] and [modelName] may be absent. *)
Definition generateMeetingSummary (ext : External) (messages : list Message)
    (topic globalRules apiKey : string)
    (provider : option LLMProvider) (modelName : option string) : M string :=
  st ← get ;
  let key := trim apiKey in
  if negb (truthy key) then throw "API Key is missing for summary generation."
  else
    let summaryProvider :=
      match provider with Some p => p | None => detectProviderFromApiKey key end in
    let summaryModel :=
      or_else (opt_or_else modelName (activeModel st))
              (getDefaultModelForProvider summaryProvider) in
    let prompt := summaryPrompt messages topic globalRules in
    if decide (summaryProvider = gemini) then
      match generateContent ext key summaryModel prompt with
      | SendThrows e => rethrow e
      | SendResult result_text => ret (opt_or_else result_text NO_SUMMARY)
      end
    else
      let request :=
        chatRequest summaryProvider key summaryModel
          [ mkOA system "会議の要約者として、短い箇条書きで日本語の議事録を返してください。";
            mkOA user prompt ] 4 in
      match fetch ext request with
      | FetchRejects e => rethrow e
      | FetchNotOk status (TextThrows e) => rethrow e
      | FetchNotOk status (TextBody body) =>
          throw ("Summary API error (" +:+ pretty status +:+ "): " +:+ body)
      | FetchOk (JsonThrows e) => rethrow e
      | FetchOk (JsonBody data) =>
          match firstChoiceContent data with
          | Throw e => rethrow e
          | Return trimmed => ret (opt_or_else trimmed NO_SUMMARY)
          end
      end.

End Service.

(** ** The App component *)

Module App.
Import Js.

(** The state cells of the component, and the [hasSummarizedRef] latch. *)
Record State := mkApp {
  config : AppConfig;
  messages : list Message;
  status : ChatStatus;
  turnCount : Z;
  currentSpeakerId : option string;
  userInput : string;
  isSummarizing : bool;
  isConfigOpen : bool;
  hasSummarizedRef : bool
}.

(** The component together with the service module it imports. *)
Record World := mkWorld { app : State; service : Service.State }.

Definition setConfig (f : AppConfig -> AppConfig) (s : State) : State :=
  mkApp (f (config s)) (messages s) (status s) (turnCount s) (currentSpeakerId s)
    (userInput s) (isSummarizing s) (isConfigOpen s) (hasSummarizedRef s).
Definition setMessages (f : list Message -> list Message) (s : State) : State :=
  mkApp (config s) (f (messages s)) (status s) (turnCount s) (currentSpeakerId s)
    (userInput s) (isSummarizing s) (isConfigOpen s) (hasSummarizedRef s).
Definition setStatus (v : ChatStatus) (s : State) : State :=
  mkApp (config s) (messages s) v (turnCount s) (currentSpeakerId s)
    (userInput s) (isSummarizing s) (isConfigOpen s) (hasSummarizedRef s).
Definition setTurnCount (f : Z -> Z) (s : State) : State :=
  mkApp (config s) (messages s) (status s) (f (turnCount s)) (currentSpeakerId s)
    (userInput s) (isSummarizing s) (isConfigOpen s) (hasSummarizedRef s).
Definition setCurrentSpeakerId (v : option string) (s : State) : State :=
  mkApp (config s) (messages s) (status s) (turnCount s) v
    (userInput s) (isSummarizing s) (isConfigOpen s) (hasSummarizedRef s).
Definition setUserInput (v : string) (s : State) : State :=
  mkApp (config s) (messages s) (status s) (turnCount s) (currentSpeakerId s)
    v (isSummarizing s) (isConfigOpen s) (hasSummarizedRef s).
Definition setIsSummarizing (v : bool) (s : State) : State :=
  mkApp (config s) (messages s) (status s) (turnCount s) (currentSpeakerId s)
    (userInput s) v (isConfigOpen s) (hasSummarizedRef s).
Definition setIsConfigOpen (v : bool) (s : State) : State :=
  mkApp (config s) (messages s) (status s) (turnCount s) (currentSpeakerId s)
    (userInput s) (isSummarizing s) v (hasSummarizedRef s).
Definition setHasSummarized (v : bool) (s : State) : State :=
  mkApp (config s) (messages s) (status s) (turnCount s) (currentSpeakerId s)
    (userInput s) (isSummarizing s) (isConfigOpen s) v.

(** [setMessages(prev => [...prev, newMessage])] *)
Definition addMessage (sender body : string) (s : State) : State :=
  setMessages (fun prev => prev ++ [mkMessage sender body])%list s.

Definition withKey (key : string) (p : LLMProvider) (m : string) (prev : AppConfig) : AppConfig :=
  mkConfig key p m (agents prev) (topic prev) (maxTurns prev) (globalRules prev).

(** [!currentSpeakerId] is false: an id is there and is not the empty string. *)
Definition speakerSet (o : option string) : bool :=
  match o with Some id => truthy id | None => false end.

(** [PROVIDER_MODEL_OPTIONS[provider]?.[0]?.id || getDefaultModelForProvider(provider)] *)
Definition firstModel (p : LLMProvider) : string :=
  opt_or_else (Service.option_id <$> head (Service.PROVIDER_MODEL_OPTIONS p))
    (Service.getDefaultModelForProvider p).

Definition SUMMARY_AGENT_id : string := "SUMMARY".

(** One highlight line of the local summary. *)
Definition bullet (m : Message) : string :=
  let name := if bool_decide (senderId m = "USER") then "User" else senderId m in
  let body := slice0 120 (collapseSpaces (text m)) in
  "• " +:+ name +:+ ": " +:+ body +:+
  (if (120 <? String.length (text m))%nat then "…" else EmptyString).

Definition buildLocalSummary (msgs : list Message) (topic : string) : string :=
  let nonSystem := filter (fun m => senderId m ≠ "SYSTEM") msgs in
  let lastFew := sliceLast 6 nonSystem in
  let bullets := map bullet lastFew in
  join nl
    [ "トピック: " +:+ or_else topic "未設定";
      match bullets with
      | _ :: _ => "直近の発言ハイライト:" +:+ nl +:+ join nl bullets
      | [] => "直近の発言がありません。"
      end ].

(** [[...messages].reverse().find(m => m.senderId !== 'SYSTEM')] *)
Definition lastContentMessage (msgs : list Message) : option Message :=
  List.find (fun m => bool_decide (senderId m ≠ "SYSTEM")) (rev msgs).

Definition findAgent (roster : list AgentConfig) (id : string) : option AgentConfig :=
  List.find (fun a => bool_decide (agent_id a = id)) roster.

Definition TypeError_id : Error :=
  mkError "Cannot read properties of undefined (reading 'id')".

(** The prompt of a turn: [Return None] is the early [return] of the guard,
    [Throw] the read of [config.agents[0].id] on an empty roster. *)
Definition determinePrompt (cfg : AppConfig) (msgs : list Message)
    (speaker : string) : Completion (option string) :=
  match msgs with
  | _ :: _ =>
      match lastContentMessage msgs with
      | Some lastMsg =>
          if bool_decide (senderId lastMsg = "USER") then
            Return (Some ("ユーザーの発言: " +:+ text lastMsg))
          else
            let senderName :=
              match findAgent (agents cfg) (senderId lastMsg) with
              | Some senderAgent => agent_name senderAgent
              | None => "Other"
              end in
            Return (Some (senderName +:+ "の発言: " +:+ text lastMsg))
      | None => Return (Some (topic cfg))
      end
  | [] =>
      match agents cfg with
      | [] => Throw TypeError_id
      | firstAgent :: _ =>
          if bool_decide (speaker ≠ agent_id firstAgent) then Return None
          else Return (Some (topic cfg))
      end
  end.

(** Switch speaker (round robin): the id of
    [agents[(findIndex(current) + 1) % agents.length]]; on an empty roster the
    index is NaN and the read of [.id] throws. *)
Definition nextSpeaker (roster : list AgentConfig) (speaker : string) : Completion string :=
  let currentIndex := findIndex (fun a => bool_decide (agent_id a = speaker)) roster in
  match roster with
  | [] => Throw TypeError_id
  | _ :: _ =>
      let nextIndex := Z.rem (currentIndex + 1) (Z.of_nat (length roster)) in
      match at_index roster nextIndex with
      | Some a => Return (agent_id a)
      | None => Throw TypeError_id
      end
  end.

(** Which way a run of [processTurn] went. *)
Inductive TurnOutcome :=
| NotRun
| LimitReached
| Skipped
| Uncaught (e : Error)
| Generated (agentId promptText : string) (response : Completion string).

(** Which way a run of the summary effect went. *)
Inductive SummaryOutcome :=
| NoSummary
| Summarized (result : Completion string).

Section Component.

(** The key of the build environment ([import.meta.env]). *)
Variable ENV_API_KEY : string.

Definition getEffectiveApiKey (cfg : AppConfig) : string :=
  let provided := trim (apiKey cfg) in
  let fallback := trim ENV_API_KEY in
  or_else provided (or_else fallback EmptyString).

Definition resetConversationState (s : State) : State :=
  let s := setStatus IDLE s in
  let s := setMessages (fun _ => []) s in
  let s := setTurnCount (fun _ => 0) s in
  let s := setCurrentSpeakerId None s in
  let s := setHasSummarized false s in
  setIsSummarizing false s.

Definition handleStart (w : World) : World :=
  let now := app w in
  let cfg := config now in
  if negb (truthy (trim (topic cfg))) then w
  else
    let normalizedApiKey := getEffectiveApiKey cfg in
    if negb (truthy normalizedApiKey) then
      mkWorld
        (addMessage "SYSTEM" "API Key is missing. Please check the configuration." now)
        (service w)
    else
      (* Normalize provider/model based on the final API key we will use *)
      let provider := Service.detectProviderFromApiKey normalizedApiKey in
      let model := firstModel provider in
      let s := setConfig (withKey normalizedApiKey provider model) now in
      (* Reset state *)
      let s := setMessages (fun _ => []) s in
      let s := setTurnCount (fun _ => 0) s in
      let s := setStatus ACTIVE s in
      let s := setHasSummarized false s in
      let s := setIsSummarizing false s in
      (* Initialize chats with current prompts and global rules *)
      match Service.initializeChats normalizedApiKey model (agents cfg)
              (globalRules cfg) (service w) with
      | (Throw e, svc) =>
          let s := addMessage "SYSTEM"
                     ("AIエージェントの初期化に失敗しました: " +:+
                      or_else (message e) "APIキーを確認してください。") s in
          let s := setStatus ERROR s in
          mkWorld s svc
      | (Return _, svc) =>
          let s := addMessage "SYSTEM"
                     ("Discussion Started: " +:+ dquote +:+ topic cfg +:+ dquote) s in
          let s := setIsConfigOpen false s in
          (* First agent starts *)
          let s := match agents cfg with
                   | firstAgent :: _ => setCurrentSpeakerId (Some (agent_id firstAgent)) s
                   | [] => s
                   end in
          mkWorld s svc
      end.

Definition handleStop (w : World) : World :=
  let s := setStatus COMPLETED (app w) in
  let s := addMessage "SYSTEM" "ユーザーによって会話が終了しました。" s in
  let s := setCurrentSpeakerId None s in
  mkWorld s (service w).

Definition handleReset (w : World) : World :=
  mkWorld (resetConversationState (app w)) (service w).

(** [if (!currentSpeakerId && config.agents.length > 0) setCurrentSpeakerId(config.agents[0].id)] *)
Definition firstSpeakerIfNone (now : State) (s : State) : State :=
  match agents (config now) with
  | firstAgent :: _ =>
      if negb (speakerSet (currentSpeakerId now))
      then setCurrentSpeakerId (Some (agent_id firstAgent)) s
      else s
  | [] => s
  end.

Definition handleUserSubmit (w : World) : World :=
  let now := app w in
  let cfg := config now in
  if negb (truthy (trim (userInput now))) then w
  else
    (* Add user message *)
    let s := addMessage "USER" (userInput now) now in
    (* Clear input *)
    let s := setUserInput EmptyString s in
    if bool_decide (status now = IDLE) || bool_decide (status now = ERROR) then
      (* Validate API Key before implicit start *)
      let normalizedApiKey := getEffectiveApiKey cfg in
      if negb (truthy normalizedApiKey) then
        mkWorld (addMessage "SYSTEM" "Please enter an API Key to start." s) (service w)
      else
        let provider := Service.detectProviderFromApiKey normalizedApiKey in
        let model := or_else (model cfg) (firstModel provider) in
        (* Initialize implicitly if needed *)
        match Service.initializeChats normalizedApiKey model (agents cfg)
                (globalRules cfg) (service w) with
        | (Return _, svc) =>
            let s := setConfig (withKey normalizedApiKey provider model) s in
            let s := setStatus ACTIVE s in
            (* Set first speaker if none *)
            mkWorld (firstSpeakerIfNone now s) svc
        | (Throw e, svc) =>
            mkWorld
              (addMessage "SYSTEM"
                 ("Failed to initialize chat. " +:+ or_else (message e) "Check API Key.") s)
              svc
        end
    else if bool_decide (status now = PAUSED) || bool_decide (status now = COMPLETED) then
      (* Reactivate *)
      let s := setStatus ACTIVE s in
      mkWorld (firstSpeakerIfNone now s) (service w)
    else mkWorld s (service w).

(** The [catch] of [processTurn]. *)
Definition reportTurnError (e : Error) (s : State) : State :=
  let s := addMessage "SYSTEM"
             ("LLM APIエラー: " +:+
              or_else (message e) "詳細不明です。APIキーとモデルを確認してください。") s in
  setStatus ERROR s.

(** Main orchestration loop: one run of [processTurn] from the state the
    effect closed over. *)
Definition processTurn (ext : Service.External) (w : World) : World * TurnOutcome :=
  let now := app w in
  let cfg := config now in
  match currentSpeakerId now with
  | Some speaker =>
      if negb (bool_decide (status now = ACTIVE)) || negb (truthy speaker) then (w, NotRun)
      else
        (* Check max turns constraint *)
        if maxTurns cfg * Z.of_nat (length (agents cfg)) <=? turnCount now then
          let s := setStatus COMPLETED now in
          let s := addMessage "SYSTEM" "Conversation Limit Reached." s in
          (mkWorld s (service w), LimitReached)
        else
          (* Determine prompt input *)
          match determinePrompt cfg (messages now) speaker with
          | Throw e => (w, Uncaught e)
          | Return None => (w, Skipped)
          | Return (Some promptText) =>
              match Service.generateResponse ext speaker promptText (service w) with
              | (Return responseText, svc) =>
                  let s := addMessage speaker responseText now in
                  let s := setTurnCount (fun prev => prev + 1) s in
                  (* Switch speaker (Round Robin) *)
                  match nextSpeaker (agents cfg) speaker with
                  | Return next =>
                      (mkWorld (setCurrentSpeakerId (Some next) s) svc,
                       Generated speaker promptText (Return responseText))
                  | Throw e =>
                      (mkWorld (reportTurnError e s) svc,
                       Generated speaker promptText (Return responseText))
                  end
              | (Throw e, svc) =>
                  (mkWorld (reportTurnError e now) svc,
                   Generated speaker promptText (Throw e))
              end
          end
  | None => (w, NotRun)
  end.

(** Generate meeting minutes once conversation ends: one run of the effect. *)
Definition summaryEffect (ext : Service.External) (w : World) : World * SummaryOutcome :=
  let now := app w in
  let cfg := config now in
  if negb (bool_decide (status now = COMPLETED)) then (w, NoSummary)
  else if hasSummarizedRef now then (w, NoSummary)
  else
    match messages now with
    | [] => (w, NoSummary)
    | _ :: _ =>
        let s := setHasSummarized true now in
        let s := setIsSummarizing true s in
        let s := addMessage "SYSTEM" "議事録をまとめています..." s in
        match Service.generateMeetingSummary ext (messages now) (topic cfg)
                (globalRules cfg) (getEffectiveApiKey cfg)
                (Some (provider cfg)) (Some (model cfg)) (service w) with
        | (Return summary, svc) =>
            let s := addMessage SUMMARY_AGENT_id summary s in
            (mkWorld (setIsSummarizing false s) svc, Summarized (Return summary))
        | (Throw e, svc) =>
            let fallback := buildLocalSummary (messages now) (topic cfg) in
            let s := addMessage SUMMARY_AGENT_id
                       ("要約生成に失敗しました: " +:+
                        or_else (message e) "理由不明のエラー" +:+
                        nl +:+ nl +:+ "ローカル要約:" +:+ nl +:+ fallback) s in
            (mkWorld (setIsSummarizing false s) svc, Summarized (Throw e))
        end
    end.

(** *** Runs *)

(** What can happen to the component: the four intents, typing into the
    input box, and a firing of either effect with what the network answers. *)
Inductive Event :=
| Start
| Stop
| Reset
| TypeInput (value : string)
| Submit
| Turn (ext : Service.External)
| SummaryFx (ext : Service.External).

(** A call into the service made by an effect. *)
Inductive Call :=
| GenerateCall (agentId promptText : string)
| SummaryCall.

Definition callsOfTurn (o : TurnOutcome) : list Call :=
  match o with
  | Generated agentId promptText _ => [GenerateCall agentId promptText]
  | _ => []
  end.

Definition callsOfSummary (o : SummaryOutcome) : list Call :=
  match o with
  | Summarized _ => [SummaryCall]
  | NoSummary => []
  end.

Definition step (ev : Event) (w : World) : World * list Call :=
  match ev with
  | Start => (handleStart w, [])
  | Stop => (handleStop w, [])
  | Reset => (handleReset w, [])
  | TypeInput value => (mkWorld (setUserInput value (app w)) (service w), [])
  | Submit => (handleUserSubmit w, [])
  | Turn ext => let '(w', o) := processTurn ext w in (w', callsOfTurn o)
  | SummaryFx ext => let '(w', o) := summaryEffect ext w in (w', callsOfSummary o)
  end.

Fixpoint run (evs : list Event) (w : World) : World * list Call :=
  match evs with
  | [] => (w, [])
  | ev :: rest =>
      let '(w1, calls1) := step ev w in
      let '(w2, calls2) := run rest w1 in
      (w2, (calls1 ++ calls2)%list)
  end.

(** [userSubmit(text)]: the text is typed, then the form is submitted. *)
Definition userSubmit (value : string) (w : World) : World :=
  handleUserSubmit (mkWorld (setUserInput value (app w)) (service w)).

(** Consecutive turns, with the outcome of each. *)
Fixpoint runTurns (exts : list Service.External) (w : World) : World * list TurnOutcome :=
  match exts with
  | [] => (w, [])
  | ext :: rest =>
      let '(w1, o) := processTurn ext w in
      let '(w2, os) := runTurns rest w1 in
      (w2, o :: os)
  end.

End Component.

(** The component as mounted with configuration [cfg]. *)
Definition initialWorld (cfg : AppConfig) : World :=
  mkWorld (mkApp cfg [] IDLE 0 None EmptyString false false false) Service.initial.

End App.

(** ** Around the conversation: ids, the exported log, the key field *)

Module Ui.
Import Js.

(** A digit of [n.toString(16)]. *)
Definition hexDigit (d : Z) : ascii :=
  if d <? 10 then ascii_of_nat (Z.to_nat (48 + d)) else ascii_of_nat (Z.to_nat (87 + d)).

Fixpoint toString16_go (fuel : nat) (n : Z) (acc : string) : string :=
  match fuel with
  | O => acc
  | S fuel' =>
      let acc' := String (hexDigit (n mod 16)) acc in
      if n / 16 =? 0 then acc' else toString16_go fuel' (n / 16) acc'
  end.

(** [n.toString(16)] for an integer from 0 to below 2^64 (sixteen digits). *)
Definition toString16 (n : Z) : string := toString16_go 16 n EmptyString.

Fixpoint repeatChar (n : nat) (c : ascii) : string :=
  match n with
  | O => EmptyString
  | S n' => String c (repeatChar n' c)
  end.

(** [s.padStart(len, c)] for a pad of one character. *)
Definition padStart (len : nat) (c : ascii) (s : string) : string :=
  repeatChar (len - String.length s) c +:+ s.

(** [s.slice(n)] *)
Fixpoint sliceFrom (n : nat) (s : string) : string :=
  match n, s with
  | S n', String _ s' => sliceFrom n' s'
  | _, _ => s
  end.

(** The two assignments that mark a version 4 identifier; a typed array
    ignores a write out of its range. *)
Definition setVersionBits (array : list Z) : list Z :=
  let array := alter (fun b => Z.lor (Z.land b 15) 64) 6%nat array in
  alter (fun b => Z.lor (Z.land b 63) 128) 8%nat array.

(** The template of the identifier over [hex]; a missing entry prints as
    [undefined]. *)
Definition formatUuid (array : list Z) : string :=
  let hex := map (fun b => padStart 2 "0"%char (toString16 b)) array in
  let h := fun i : nat => match hex !! i with Some x => x | None => "undefined" end in
  h 0%nat +:+ h 1%nat +:+ h 2%nat +:+ h 3%nat +:+ "-" +:+
  h 4%nat +:+ h 5%nat +:+ "-" +:+ h 6%nat +:+ h 7%nat +:+ "-" +:+
  h 8%nat +:+ h 9%nat +:+ "-" +:+ join EmptyString (drop 10 hex).

(** What the page finds of [crypto]: [randomUUID] and its result, or
    [getRandomValues] and the sixteen values it writes, or neither, with
    [Date.now()] and [Math.random().toString(16)]. *)
Inductive CryptoEnv :=
| WithRandomUUID (uuid : string)
| WithRandomValues (values : list Z)
| WithoutCrypto (now : Z) (random16 : string).

Definition safeRandomId (env : CryptoEnv) : string :=
  match env with
  | WithRandomUUID uuid => uuid
  | WithRandomValues values => formatUuid (setVersionBits values)
  | WithoutCrypto now random16 =>
      "id-" +:+ toString16 now +:+ "-" +:+ sliceFrom 2 random16
  end.

(** [s.replace(/c/g, by)] for a pattern of one character. *)
Fixpoint replaceChar (c : ascii) (by_ : string) (s : string) : string :=
  match s with
  | EmptyString => EmptyString
  | String x s' =>
      if Ascii.eqb x c then by_ +:+ replaceChar c by_ s'
      else String x (replaceChar c by_ s')
  end.

(** [safeText] of [handleDownloadLog]: the three replacements, in the order
    of the source. *)
Definition safeText (text : string) : string :=
  replaceChar ">"%char "&gt;"
    (replaceChar "<"%char "&lt;" (replaceChar "&"%char "&amp;" text)).

(** [handleApiKeyChange] of the configuration panel, as the update of the
    configuration it makes. *)
Definition handleApiKeyChange (key : string) (prev : AppConfig) : AppConfig :=
  let detected := Service.detectProviderFromApiKey key in
  let availableModels := Service.PROVIDER_MODEL_OPTIONS detected in
  let nextModel :=
    opt_or_else
      (Service.option_id <$>
         List.find (fun m => bool_decide (Service.option_id m = model prev)) availableModels)
      (opt_or_else (Service.option_id <$> head availableModels)
         (Service.getDefaultModelForProvider detected)) in
  mkConfig key detected nextModel (agents prev) (topic prev) (maxTurns prev)
    (globalRules prev).

(** *** The footer of the configuration panel *)

Import App.

(** The main button of the footer: Start (enabled or not) while the status
    is IDLE, COMPLETED or ERROR, Stop otherwise. *)
Inductive FooterButton := StartButton (disabled : bool) | StopButton.

Definition footerButton (ENV_API_KEY : string) (s : App.State) : FooterButton :=
  if bool_decide (status s = IDLE) || bool_decide (status s = COMPLETED)
     || bool_decide (status s = ERROR)
  then StartButton (negb (truthy (trim (topic (config s))))
                    || negb (truthy (getEffectiveApiKey ENV_API_KEY (config s))))
  else StopButton.

(** [status !== ChatStatus.IDLE && <button onClick={onReset}>] *)
Definition resetShown (s : App.State) : bool := negb (bool_decide (status s = IDLE)).

(** The page offers [ev] in [w]: Start, Stop and Reset through the footer as
    it is rendered for [w]; the input box and the two effects at any time. *)
Definition offered (ENV_API_KEY : string) (w : World) (ev : Event) : bool :=
  match ev with
  | Start => match footerButton ENV_API_KEY (app w) with
             | StartButton disabled => negb disabled
             | StopButton => false
             end
  | Stop => match footerButton ENV_API_KEY (app w) with
            | StartButton _ => false
            | StopButton => true
            end
  | Reset => resetShown (app w)
  | _ => true
  end.

(** Every event of the run is offered in the world it meets. *)
Fixpoint offeredRun (ENV_API_KEY : string) (evs : list Event) (w : World) : bool :=
  match evs with
  | [] => true
  | ev :: rest =>
      offered ENV_API_KEY w ev && offeredRun ENV_API_KEY rest (step ENV_API_KEY ev w).1
  end.

End Ui.

(** * Specification vocabulary *)

Module Spec.
Import Js Service App.

(** [agentId] has a session under the active provider. *)
Definition hasSession (st : Service.State) (agentId : string) : Prop :=
  if decide (activeProvider st = gemini)
  then is_Some (chatSessions st !! agentId)
  else is_Some (openAISessions st !! agentId).

(** The external call that [generateResponse] makes for [agentId] fails:
    the SDK call throws, the transport fails, the status is not a success,
    or the body cannot be read as a completion. *)
Inductive ExternalFailure (ext : External) (st : Service.State)
    (agentId inputMessage : string) : Error -> Prop :=
| SdkThrows session e :
    activeProvider st = gemini ->
    chatSessions st !! agentId = Some session ->
    sendMessage ext session inputMessage = SendThrows e ->
    ExternalFailure ext st agentId inputMessage e
| TransportFailure messages e :
    activeProvider st ≠ gemini ->
    openAISessions st !! agentId = Some messages ->
    fetch ext (chatRequest (activeProvider st) (activeApiKey st) (activeModel st)
                 (messages ++ [mkOA user inputMessage]) 7) = FetchRejects e ->
    ExternalFailure ext st agentId inputMessage e
| HttpStatus messages status body e :
    activeProvider st ≠ gemini ->
    openAISessions st !! agentId = Some messages ->
    fetch ext (chatRequest (activeProvider st) (activeApiKey st) (activeModel st)
                 (messages ++ [mkOA user inputMessage]) 7) = FetchNotOk status body ->
    e = match body with
        | TextThrows e' => e'
        | TextBody b => mkError ("OpenAI API error (" +:+ pretty status +:+ "): " +:+ b)
        end ->
    ExternalFailure ext st agentId inputMessage e
| MalformedBody messages body e :
    activeProvider st ≠ gemini ->
    openAISessions st !! agentId = Some messages ->
    fetch ext (chatRequest (activeProvider st) (activeApiKey st) (activeModel st)
                 (messages ++ [mkOA user inputMessage]) 7) = FetchOk body ->
    match body with
    | JsonThrows e' => e = e'
    | JsonBody data => firstChoiceContent data = Throw e
    end ->
    ExternalFailure ext st agentId inputMessage e.

(** The external call succeeds and carries the text [t] ([None]: no text). *)
Inductive ExternalText (ext : External) (st : Service.State)
    (agentId inputMessage : string) : option string -> Prop :=
| SdkText session t :
    activeProvider st = gemini ->
    chatSessions st !! agentId = Some session ->
    sendMessage ext session inputMessage = SendResult t ->
    ExternalText ext st agentId inputMessage t
| CompletionText messages data t :
    activeProvider st ≠ gemini ->
    openAISessions st !! agentId = Some messages ->
    fetch ext (chatRequest (activeProvider st) (activeApiKey st) (activeModel st)
                 (messages ++ [mkOA user inputMessage]) 7) = FetchOk (JsonBody data) ->
    firstChoiceContent data = Return t ->
    ExternalText ext st agentId inputMessage t.

(** A response text that is missing or empty. *)
Definition noText (t : option string) : Prop := t = None \/ t = Some EmptyString.

(** *** The orchestrator *)

(** A turn is due for [speaker]: the status is ACTIVE, [speaker] is the
    current speaker, and the turn budget is not yet reached. *)
Definition turnDue (w : World) (speaker : string) : Prop :=
  status (app w) = ACTIVE
  /\ currentSpeakerId (app w) = Some speaker
  /\ truthy speaker = true
  /\ turnCount (app w)
     < maxTurns (config (app w)) * Z.of_nat (length (agents (config (app w)))).

(** [m] is the most recent message of [msgs] that is not a SYSTEM one. *)
Definition mostRecentContent (msgs : list Message) (m : Message) : Prop :=
  exists before after,
    msgs = (before ++ m :: after)%list
    /\ senderId m ≠ "SYSTEM"
    /\ Forall (fun x => senderId x = "SYSTEM") after.


(** The label of the sender of [m] in a prompt: the user, the display name
    of the sending agent, or Other for a sender the roster does not know. *)
Definition speakerLabel (cfg : AppConfig) (m : Message) : string :=
  if bool_decide (senderId m = "USER") then "ユーザー"
  else match findAgent (agents cfg) (senderId m) with
       | Some a => agent_name a
       | None => "Other"
       end.


(** The turn budget of a configuration. *)
Definition turnLimit (cfg : AppConfig) : Z :=
  maxTurns cfg * Z.of_nat (length (agents cfg)).

(** The budget is used up. *)
Definition spent (w : World) : Prop :=
  turnLimit (config (app w)) <= turnCount (app w).

(** The count is within a budget that is not negative. *)
Definition withinBudget (w : World) : Prop :=
  0 <= maxTurns (config (app w))
  /\ turnCount (app w) <= turnLimit (config (app w)).

(** A turn that produced a reply. *)
Definition replied (o : TurnOutcome) : Prop :=
  match o with
  | Generated _ _ (Return _) => True
  | _ => False
  end.

(** An event that opens a new conversation or clears the current one. *)
Definition restarts (ev : Event) : bool :=
  match ev with
  | Start | Reset => true
  | _ => false
  end.

Definition isGenerateCall (c : Call) : bool :=
  match c with GenerateCall _ _ => true | SummaryCall => false end.



(** How many times the response generator was invoked. *)
Definition generateCalls (calls : list Call) : nat :=
  length (filter (fun c => isGenerateCall c = true) calls).

End Spec.

(** * Sample data *)

Module Samples.
Import Js Service App.

Definition agentA : AgentConfig := mkAgent "A" "Dr. Logic" "You are a scientist." cyan EmptyString.
Definition agentB : AgentConfig := mkAgent "B" "Poet Willow" "You are a poet." pink EmptyString.

Definition agentC : AgentConfig := mkAgent "C" "Critic" "You are a critic." amber EmptyString.

(** Three agents, two turns each, a key of the groq form. *)
Definition panelConfig : AppConfig :=
  mkConfig "gsk_test" groq EmptyString [agentA; agentB; agentC] "Tea or coffee" 2 "Be brief".

Definition sampleConfig : AppConfig :=
  mkConfig "sk-test" openai "gpt-4o-mini" [agentA; agentB] "Tea or coffee" 1 "Be brief".

(** A completion body whose first choice carries [s]. *)
Definition completion (s : string) : JSON :=
  JObj [("choices", JArr [JObj [("message", JObj [("content", JStr s)])]])].

(** A network that answers every request with [s]. *)
Definition answering (s : string) : External :=
  mkExternal (fun _ _ => SendResult (Some s)) (fun _ _ _ => SendResult (Some s))
    (fun _ => FetchOk (JsonBody (completion s))).

(** A network that cannot be reached. *)
Definition unreachable : External :=
  mkExternal (fun _ _ => SendThrows (mkError "offline"))
    (fun _ _ _ => SendThrows (mkError "offline"))
    (fun _ => FetchRejects (mkError "offline")).

(** A network that refuses every request with [status] and [body]. *)
Definition refusing (status : Z) (body : string) : External :=
  mkExternal (fun _ _ => SendThrows (mkError body)) (fun _ _ _ => SendThrows (mkError body))
    (fun _ => FetchNotOk status (TextBody body)).

(** The bindings of the service after an earlier conversation with one
    agent. *)
Definition earlierSessions : Service.State :=
  mkState ∅ {[ "old" := [mkOA system "persona"; mkOA user "hello"; mkOA assistant "hi"] ]}
    openai "gpt-4o" "sk-earlier".

(** The sessions of [sampleConfig]. *)
Definition sampleSessions : Service.State :=
  (initializeChats "sk-test" "gpt-4o-mini" [agentA; agentB] "Be brief" Service.initial).2.


(** The component after a start with [sampleConfig] and no key in the build
    environment. *)
Definition startedWorld : World := handleStart EmptyString (initialWorld sampleConfig).


(** The same conversation after its two turns, before the limit is seen. *)
Definition spentWorld : World :=
  (run EmptyString [Turn (answering "Tea."); Turn (answering "Coffee.")] startedWorld).1.

(** The same conversation once its budget of two turns is used up. *)
Definition completedWorld : World :=
  (run EmptyString
     [Turn (answering "Tea."); Turn (answering "Coffee."); Turn (answering "unused")]
     startedWorld).1.

End Samples.

(** * Further vocabulary *)

Module Derived.
Import Js Service App Ui Spec Samples.

(** *** Sessions *)

Section Inserts.
Context {V : Type} (g : AgentConfig -> V).

(** The map after one insertion per agent of the roster, in roster order. *)
Definition insertAll (m : gmap string V) (roster : list AgentConfig) : gmap string V :=
  foldl (fun m a => <[agent_id a := g a]> m) m roster.

End Inserts.

(** A new SDK chat of [a]. *)
Definition freshChat (clientKey modelName rules : string) (a : AgentConfig) : Chat :=
  mkChat clientKey modelName (combinedSystemInstruction a rules).

(** A new message history of [a]: the persona alone. *)
Definition freshMessages (rules : string) (a : AgentConfig) : list OpenAIMessage :=
  [mkOA system (combinedSystemInstruction a rules)].

(** The bindings after [installSessions], whatever they were before. *)
Definition installed (key clientKey modelName : string) (roster : list AgentConfig)
    (rules : string) : Service.State :=
  let p := detectProviderFromApiKey key in
  let m := or_else modelName (getDefaultModelForProvider p) in
  if decide (p = gemini)
  then mkState (insertAll (freshChat clientKey m rules) ∅ roster) ∅ p m key
  else mkState ∅ (insertAll (freshMessages rules) ∅ roster) p m key.

(** *** The component and the service together *)

(** The configuration shown and the bindings of the service agree. *)
Definition bound (w : World) : Prop :=
  apiKey (config (app w)) = activeApiKey (service w)
  /\ provider (config (app w)) = activeProvider (service w)
  /\ model (config (app w)) = activeModel (service w)
  /\ provider (config (app w)) = detectProviderFromApiKey (apiKey (config (app w)))
  /\ truthy (apiKey (config (app w))) = true.

(** The roster is [roster], a speaker is one of its agents, and while the
    conversation is ACTIVE or COMPLETED every agent has its session and the
    configuration agrees with the service. *)
Definition wired (roster : list AgentConfig) (w : World) : Prop :=
  agents (config (app w)) = roster
  /\ status (app w) ≠ PAUSED
  /\ (forall id, currentSpeakerId (app w) = Some id -> id ∈ map agent_id roster)
  /\ (status (app w) = ACTIVE \/ status (app w) = COMPLETED ->
      (forall id, id ∈ map agent_id roster -> hasSession (service w) id) /\ bound w).

(** Two worlds with the same key, roster, topic, turn limit, rules and
    pending input. *)
Definition sameSetup (w1 w2 : World) : Prop :=
  apiKey (config (app w1)) = apiKey (config (app w2))
  /\ agents (config (app w1)) = agents (config (app w2))
  /\ topic (config (app w1)) = topic (config (app w2))
  /\ maxTurns (config (app w1)) = maxTurns (config (app w2))
  /\ globalRules (config (app w1)) = globalRules (config (app w2))
  /\ userInput (app w1) = userInput (app w2).

(** A submission cannot start the conversation: nothing is running and no
    key is to be had. *)
Definition blocked (ENV_API_KEY : string) (w : World) : Prop :=
  (status (app w) = IDLE \/ status (app w) = ERROR)
  /\ truthy (getEffectiveApiKey ENV_API_KEY (config (app w))) = false.

(** A firing of one of the two effects. *)
Definition isEffect (ev : Event) : bool :=
  match ev with
  | Turn _ | SummaryFx _ => true
  | _ => false
  end.

(** *** Calls of the service, one after the other *)

(** One call of [generateResponse]: the network it meets, the agent, the
    prompt. *)
Record Request := mkCall { network : External; callee : string; prompt : string }.

(** Calls made one after the other, with the result of each. *)
Fixpoint serve (calls : list Request) (st : Service.State)
    : Service.State * list (Completion string) :=
  match calls with
  | [] => (st, [])
  | c :: rest =>
      let '(r, st1) := generateResponse (network c) (callee c) (prompt c) st in
      let '(st2, rs) := serve rest st1 in
      (st2, r :: rs)
  end.

(** What the calls that returned for [agentId] leave in its history, in the
    order of the calls. *)
Fixpoint exchanges (agentId : string) (calls : list Request)
    (results : list (Completion string)) : list OpenAIMessage :=
  match calls, results with
  | c :: calls', Return answer :: results' =>
      (if bool_decide (callee c = agentId)
       then [mkOA user (prompt c); mkOA assistant answer]
       else []) ++ exchanges agentId calls' results'
  | _ :: calls', Throw _ :: results' => exchanges agentId calls' results'
  | _, _ => []
  end%list.

(** Two calls for the first agent, the second one failing, and one for the
    second agent. *)
Definition sampleCalls : list Request :=
  [ mkCall (answering "Tea.") "A" "Tea or coffee";
    mkCall unreachable "A" "Once more";
    mkCall (answering "Coffee.") "B" "Dr. Logic: Tea." ].

(** An event that can neither clear nor set the summary latch. *)
Definition keepsLatch (ev : Event) : bool :=
  match ev with
  | Start | Reset | SummaryFx _ => false
  | _ => true
  end.

(** *** Identifiers *)

(** A lower-case hexadecimal digit. *)
Definition isHex (c : ascii) : bool :=
  let n := nat_of_ascii c in
  ((48 <=? n) && (n <=? 57) || (97 <=? n) && (n <=? 102))%nat.

(** The layout of a version 4 identifier from position [i] on: hyphens at
    8, 13, 18 and 23, the version digit 4 at 14, a variant digit (8, 9, a or
    b) at 19, hexadecimal digits elsewhere. *)
Fixpoint uuidShape_from (i : nat) (s : string) : bool :=
  match s with
  | EmptyString => true
  | String c s' =>
      (if (i =? 8)%nat || (i =? 13)%nat || (i =? 18)%nat || (i =? 23)%nat
       then Ascii.eqb c "-"
       else if (i =? 14)%nat then Ascii.eqb c "4"
       else if (i =? 19)%nat
            then Ascii.eqb c "8" || Ascii.eqb c "9" || Ascii.eqb c "a" || Ascii.eqb c "b"
            else isHex c)
      && uuidShape_from (S i) s'
  end.

Definition uuidShape (s : string) : bool :=
  (String.length s =? 36)%nat && uuidShape_from 0 s.

(** [b.toString(16).padStart(2, '0')] *)
Definition byteHex (b : Z) : string := padStart 2 "0"%char (toString16 b).

Definition twoHex (s : string) : bool :=
  match s with
  | String a (String b EmptyString) => isHex a && isHex b
  | _ => false
  end.

Definition versionHex (s : string) : bool :=
  match s with
  | String a (String b EmptyString) => Ascii.eqb a "4" && isHex b
  | _ => false
  end.

Definition variantHex (s : string) : bool :=
  match s with
  | String a (String b EmptyString) =>
      (Ascii.eqb a "8" || Ascii.eqb a "9" || Ascii.eqb a "a" || Ascii.eqb a "b") && isHex b
  | _ => false
  end.

(** Sixteen values as [getRandomValues] may write them. *)
Definition sampleBytes : list Z :=
  [0; 17; 34; 51; 68; 85; 102; 119; 136; 153; 170; 187; 204; 221; 238; 255].

(** *** The exported log *)

(** What one character of a message becomes in the exported page. *)
Definition escapeChar (c : ascii) : string :=
  if Ascii.eqb c "&" then "&amp;"
  else if Ascii.eqb c "<" then "&lt;"
  else if Ascii.eqb c ">" then "&gt;"
  else String c EmptyString.

Fixpoint escapeEach (s : string) : string :=
  match s with
  | EmptyString => EmptyString
  | String c s' => escapeChar c +:+ escapeEach s'
  end.

(** [c] occurs in [s]. *)
Fixpoint occurs (c : ascii) (s : string) : bool :=
  match s with
  | EmptyString => false
  | String x s' => Ascii.eqb x c || occurs c s'
  end.

End Derived.

(** * Properties of the service *)

Module ServiceFacts.
Import Js Service Spec Samples.

Lemma forEach_returns (agents : list AgentConfig) (body : AgentConfig -> M unit) :
  (forall agent st, exists st', body agent st = (Return tt, st')) ->
  forall st, exists st', forEach agents body st = (Return tt, st').
Proof.
  intros Hbody. induction agents as [|agent rest IH]; intros st; simpl.
  - by exists st.
  - unfold mbind, M_bind. destruct (Hbody agent st) as [st1 ->]. apply IH.
Qed.

Lemma installSessions_returns key clientKey modelName agents globalRules st :
  exists st', installSessions key clientKey modelName agents globalRules st = (Return tt, st').
Proof.
  unfold installSessions, mbind, M_bind, modify, get; simpl.
  case_decide; apply forEach_returns; intros agent st0; eexists; reflexivity.
Qed.

(** The credential check of the current revision. *)
Lemma initializeChats_blank apiKey modelName agents globalRules st :
  truthy (trim apiKey) = false ->
  initializeChats apiKey modelName agents globalRules st
  = (Throw (mkError "API Key is required"), st).
Proof. intros H. unfold initializeChats. by rewrite H. Qed.

Lemma initializeChats_accepts apiKey modelName agents globalRules st :
  truthy (trim apiKey) = true ->
  exists st', initializeChats apiKey modelName agents globalRules st = (Return tt, st').
Proof.
  intros H. unfold initializeChats. rewrite H. apply installSessions_returns.
Qed.

Ltac service_run :=
  unfold generateResponse, mbind, M_bind, get, modify, ret, throw, rethrow; simpl.

Lemma hasSession_gemini st agentId :
  activeProvider st = gemini -> hasSession st agentId <-> is_Some (chatSessions st !! agentId).
Proof. intros H. unfold hasSession. by rewrite decide_True. Qed.

Lemma hasSession_other st agentId :
  activeProvider st ≠ gemini -> hasSession st agentId <-> is_Some (openAISessions st !! agentId).
Proof. intros H. unfold hasSession. by rewrite decide_False. Qed.

Lemma ExternalFailure_hasSession ext st agentId input e :
  ExternalFailure ext st agentId input e -> hasSession st agentId.
Proof.
  destruct 1; [apply hasSession_gemini | apply hasSession_other ..]; eauto.
Qed.

Ltac contradict_session :=
  match goal with
  | Hno : ¬ hasSession _ _ |- _ =>
      exfalso; apply Hno;
      first [ by apply hasSession_gemini; eauto | by apply hasSession_other; eauto ]
  end.

Ltac same_call :=
  simplify_eq;
  repeat match goal with
         | H1 : ?x = ?a, H2 : ?x = ?b |- _ =>
             lazymatch a with
             | b => fail
             | _ => rewrite H1 in H2; simplify_eq
             end
         end.

Ltac from_cause :=
  let Hf := fresh "Hf" in
  intros [[? _]|Hf]; [ contradict_session | destruct Hf; same_call; try done ].

Ltac no_text :=
  let Ht := fresh "Ht" in let Hn := fresh "Hn" in
  intros ? Ht Hn; destruct Ht; same_call; try done;
  try (by destruct Hn as [-> | ->]).

(** A call that throws leaves the bindings as they were. *)
Lemma generateResponse_throw_state ext agentId inputMessage st e :
  (generateResponse ext agentId inputMessage st).1 = Throw e ->
  (generateResponse ext agentId inputMessage st).2 = st.
Proof.
  service_run.
  destruct (decide (activeProvider st = gemini)).
  - destruct (chatSessions st !! agentId) as [session|]; [|done].
    by destruct (sendMessage ext session inputMessage).
  - destruct (openAISessions st !! agentId) as [messages|]; [|done].
    destruct (fetch ext _) as [?|? []|[?|data]]; try done.
    by destruct (firstChoiceContent data).
Qed.

(** C3.  [generateResponse] throws exactly when the agent has no session
    under the active provider (with the not-initialized message) or the
    external call made for it fails (the SDK call throws, the transport
    fails, the status is not a success, or the body cannot be read); a
    response whose text is missing or empty is not a failure and gives the
    placeholder [NO_RESPONSE]; and whenever it throws, the bindings of the
    service, session memory included, are exactly those before the call. *)
Theorem generateResponse_failure ext agentId inputMessage st :
  let r := generateResponse ext agentId inputMessage st in
  (forall e, r.1 = Throw e <->
     (¬ hasSession st agentId /\
      e = mkError ("Chat Session for agent " +:+ agentId +:+ " not initialized"))
     \/ ExternalFailure ext st agentId inputMessage e)
  /\ (forall t, ExternalText ext st agentId inputMessage t -> noText t ->
        r.1 = Return NO_RESPONSE)
  /\ (forall e, r.1 = Throw e -> r.2 = st).
Proof.
  service_run.
  destruct (decide (activeProvider st = gemini)) as [Hp|Hp].
  - destruct (chatSessions st !! agentId) as [session|] eqn:Hs.
    + destruct (sendMessage ext session inputMessage) as [e0|t0] eqn:Hsend; simpl;
        (split_and!; [ intros e; split | no_text | done ]).
      * intros [= <-]. right. by eapply SdkThrows.
      * from_cause.
      * done.
      * from_cause.
    + simpl. split_and!; [ intros e; split | no_text | done ].
      * intros [= <-]. left. split; [|done].
        rewrite hasSession_gemini, Hs by done. by intros [? ?].
      * intros [[_ ->]|Hf]; [done|].
        apply ExternalFailure_hasSession, hasSession_gemini in Hf; [|done].
        rewrite Hs in Hf. by destruct Hf.
  - destruct (openAISessions st !! agentId) as [messages|] eqn:Hs.
    + destruct (fetch ext (chatRequest _ _ _ _ _)) as [e0|status body|body] eqn:Hfetch;
        simpl.
      * split_and!; [ intros e; split | no_text | done ].
        -- intros [= <-]. right. by eapply TransportFailure.
        -- from_cause.
      * split_and!; [ intros e; split | no_text | by destruct body ].
        -- intros He. right. eapply HttpStatus; eauto.
           destruct body; simpl in He; by simplify_eq.
        -- from_cause. by destruct body0.
      * destruct body as [e0|data]; simpl.
        -- split_and!; [ intros e; split | no_text | done ].
           ++ intros [= <-]. right. by eapply MalformedBody.
           ++ from_cause.
        -- destruct (firstChoiceContent data) as [trimmed|e0] eqn:Hc; simpl;
             (split_and!; [ intros e; split | no_text | done ]).
           ++ done.
           ++ from_cause.
           ++ intros [= <-]. right. by eapply MalformedBody.
           ++ from_cause.
    + simpl. split_and!; [ intros e; split | no_text | done ].
      * intros [= <-]. left. split; [|done].
        rewrite hasSession_other, Hs by done. by intros [? ?].
      * intros [[_ ->]|Hf]; [done|].
        apply ExternalFailure_hasSession, hasSession_other in Hf; [|done].
        rewrite Hs in Hf. by destruct Hf.
Qed.

(** The current revision of [initializeChats] on the credential: a key that
    is empty after trimming is refused and nothing is touched; any other key
    passes the check and the call returns. *)
Lemma initializeChats_credential_check apiKey modelName agents globalRules st :
  (truthy (trim apiKey) = false ->
   initializeChats apiKey modelName agents globalRules st
   = (Throw (mkError "API Key is required"), st))
  /\ (truthy (trim apiKey) = true ->
      exists st', initializeChats apiKey modelName agents globalRules st = (Return tt, st')).
Proof.
  split; [apply initializeChats_blank | apply initializeChats_accepts].
Qed.

(** C4, on the earlier revision of [initializeChats].  Given a key of white
    space only it returns: it discards the sessions it had, makes new ones
    and keeps the blank key, where the current revision throws and touches
    nothing. *)
Theorem initializeChats_v1_blank_key :
  truthy (trim "   ") = false
  /\ (initializeChats_v1 "   " EmptyString [agentA] "Be brief" earlierSessions).1 = Return tt
  /\ openAISessions
       (initializeChats_v1 "   " EmptyString [agentA] "Be brief" earlierSessions).2 !! "old"
     = None
  /\ is_Some
       (chatSessions
          (initializeChats_v1 "   " EmptyString [agentA] "Be brief" earlierSessions).2 !! "A")
  /\ activeApiKey
       (initializeChats_v1 "   " EmptyString [agentA] "Be brief" earlierSessions).2 = "   "
  /\ activeProvider
       (initializeChats_v1 "   " EmptyString [agentA] "Be brief" earlierSessions).2 = gemini
  /\ initializeChats "   " EmptyString [agentA] "Be brief" earlierSessions
     = (Throw (mkError "API Key is required"), earlierSessions).
Proof.
  split_and!; try reflexivity. eexists; reflexivity.
Qed.

Example generateResponse_blank_text :
  (generateResponse (answering "   ") "A" "Tea or coffee" sampleSessions).1
  = Return "[No response generated]".
Proof. reflexivity. Qed.

Example generateResponse_refused :
  generateResponse (refusing 500 "overloaded") "A" "Tea or coffee" sampleSessions
  = (Throw (mkError "OpenAI API error (500): overloaded"), sampleSessions).
Proof. reflexivity. Qed.

Example generateResponse_unknown_agent :
  generateResponse (answering "Tea.") "Z" "Tea or coffee" sampleSessions
  = (Throw (mkError "Chat Session for agent Z not initialized"), sampleSessions).
Proof. reflexivity. Qed.

Example generateResponse_remembers :
  openAISessions
    (generateResponse (answering "Tea.") "A" "Tea or coffee" sampleSessions).2 !! "A"
  = Some [ mkOA system (combinedSystemInstruction agentA "Be brief");
           mkOA user "Tea or coffee"; mkOA assistant "Tea." ].
Proof. reflexivity. Qed.

End ServiceFacts.

(** * Properties of the orchestrator *)

Module AppFacts.
Import Js Service App Spec Samples.

Lemma trimStart_head s c t : trimStart s = String c t -> is_space c = false.
Proof.
  induction s as [|c0 s IH]; simpl; [done|].
  destruct (is_space c0) eqn:Hc; [done|]. by intros [= <- <-].
Qed.

Lemma trimStart_nonspace c t : is_space c = false -> trimStart (String c t) = String c t.
Proof. intros H. simpl. by rewrite H. Qed.

Lemma trimEnd_nonspace c t :
  is_space c = false -> exists t', trimEnd (String c t) = String c t'.
Proof.
  intros H. simpl. destruct (trimEnd t); [rewrite H|]; eauto.
Qed.

Lemma trimEnd_idempotent s : trimEnd (trimEnd s) = trimEnd s.
Proof.
  induction s as [|c s IH]; simpl; [done|].
  destruct (trimEnd s) as [|c2 t2] eqn:Hr.
  - destruct (is_space c) eqn:Hc; simpl; [done|]. by rewrite Hc.
  - change (trimEnd (String c (String c2 t2))) with
      (match trimEnd (String c2 t2) with
       | EmptyString => if is_space c then EmptyString else String c EmptyString
       | t => String c t
       end).
    by rewrite IH.
Qed.

Lemma trim_idempotent s : trim (trim s) = trim s.
Proof.
  unfold trim. destruct (trimStart s) as [|c t] eqn:Hs; [done|].
  apply trimStart_head in Hs.
  destruct (trimEnd_nonspace c t Hs) as [t' Ht]. rewrite Ht.
  rewrite (trimStart_nonspace _ _ Hs), <- Ht. apply trimEnd_idempotent.
Qed.

Lemma or_else_truthy a b : truthy (or_else a b) = truthy a || truthy b.
Proof. unfold or_else. by destruct (truthy a) eqn:Ha; rewrite ?Ha. Qed.

Lemma lastContentMessage_snoc msgs m :
  lastContentMessage (msgs ++ [m]) =
  if bool_decide (senderId m ≠ "SYSTEM") then Some m else lastContentMessage msgs.
Proof. unfold lastContentMessage. by rewrite rev_unit. Qed.

Lemma lastContentMessage_Some msgs m :
  mostRecentContent msgs m -> lastContentMessage msgs = Some m.
Proof.
  intros (before & after & -> & Hm & Hafter).
  induction after as [|x after IH] using rev_ind.
  - rewrite lastContentMessage_snoc. by rewrite bool_decide_true.
  - apply Forall_app in Hafter as [Hafter Hx]. apply Forall_inv in Hx.
    replace (before ++ m :: after ++ [x])%list with ((before ++ m :: after) ++ [x])%list
      by (by rewrite <- app_assoc).
    rewrite lastContentMessage_snoc. rewrite bool_decide_false; [|by intros Hne; apply Hne].
    by apply IH.
Qed.


Lemma determinePrompt_content cfg msgs speaker m :
  mostRecentContent msgs m ->
  determinePrompt cfg msgs speaker
  = Return (Some (speakerLabel cfg m +:+ "の発言: " +:+ text m)).
Proof.
  intros Hm. unfold determinePrompt. rewrite (lastContentMessage_Some _ _ Hm).
  destruct Hm as (before & after & -> & _).
  destruct (before ++ m :: after)%list eqn:E; [by destruct before|].
  unfold speakerLabel. by case_bool_decide.
Qed.


Lemma processTurn_due ext w speaker :
  turnDue w speaker ->
  processTurn ext w =
  match determinePrompt (config (app w)) (messages (app w)) speaker with
  | Throw e => (w, Uncaught e)
  | Return None => (w, Skipped)
  | Return (Some promptText) =>
      match generateResponse ext speaker promptText (service w) with
      | (Return responseText, svc) =>
          let s := addMessage speaker responseText (app w) in
          let s := setTurnCount (fun prev => prev + 1) s in
          match nextSpeaker (agents (config (app w))) speaker with
          | Return next =>
              (mkWorld (setCurrentSpeakerId (Some next) s) svc,
               Generated speaker promptText (Return responseText))
          | Throw e =>
              (mkWorld (reportTurnError e s) svc,
               Generated speaker promptText (Return responseText))
          end
      | (Throw e, svc) =>
          (mkWorld (reportTurnError e (app w)) svc, Generated speaker promptText (Throw e))
      end
  end.
Proof.
  intros (Hst & Hsp & Htr & Hlt). unfold processTurn.
  rewrite Hsp, Hst, Htr. simpl.
  by rewrite (proj2 (Z.leb_gt _ _) Hlt).
Qed.

Lemma processTurn_generates ext w speaker promptText :
  turnDue w speaker ->
  determinePrompt (config (app w)) (messages (app w)) speaker = Return (Some promptText) ->
  (processTurn ext w).2 =
  Generated speaker promptText (generateResponse ext speaker promptText (service w)).1.
Proof.
  intros Hdue Hp. rewrite (processTurn_due _ _ _ Hdue), Hp.
  destruct (generateResponse ext speaker promptText (service w)) as [[t|e] svc]; simpl; [|done].
  by destruct (nextSpeaker _ _).
Qed.












(** C6.  When the generation call of a due turn fails, the transcript gains
    exactly one message, a SYSTEM one that describes the error; the status
    becomes ERROR; the turn count, the current speaker, the configuration and
    the bindings of the service keep their values; no message of an agent is
    appended. *)
Theorem processTurn_generation_failure ext w speaker promptText e :
  turnDue w speaker ->
  determinePrompt (config (app w)) (messages (app w)) speaker = Return (Some promptText) ->
  (generateResponse ext speaker promptText (service w)).1 = Throw e ->
  let w' := (processTurn ext w).1 in
  (processTurn ext w).2 = Generated speaker promptText (Throw e)
  /\ messages (app w') =
     (messages (app w) ++
      [mkMessage "SYSTEM"
         ("LLM APIエラー: " +:+
          or_else (message e) "詳細不明です。APIキーとモデルを確認してください。")])%list
  /\ status (app w') = ERROR
  /\ turnCount (app w') = turnCount (app w)
  /\ currentSpeakerId (app w') = currentSpeakerId (app w)
  /\ config (app w') = config (app w)
  /\ service w' = service w.
Proof.
  intros Hdue Hp He. simpl.
  pose proof (ServiceFacts.generateResponse_throw_state ext speaker promptText (service w)
                e He) as Hsame.
  rewrite (processTurn_due _ _ _ Hdue), Hp.
  destruct (generateResponse ext speaker promptText (service w)) as [[t|e'] svc];
    simpl in *; [done|].
  by simplify_eq.
Qed.

(** The first turn of the sample conversation on a network that answers
    with status 500. *)
Lemma processTurn_generation_failure_witness :
  turnDue startedWorld "A"
  /\ (generateResponse (refusing 500 "overloaded") "A" "Tea or coffee"
        (service startedWorld)).1
     = Throw (mkError "OpenAI API error (500): overloaded")
  /\ messages (app (processTurn (refusing 500 "overloaded") startedWorld).1)
     = [ mkMessage "SYSTEM" ("Discussion Started: " +:+ dquote +:+ "Tea or coffee" +:+ dquote);
         mkMessage "SYSTEM" "LLM APIエラー: OpenAI API error (500): overloaded" ]
  /\ status (app (processTurn (refusing 500 "overloaded") startedWorld).1) = ERROR
  /\ turnCount (app (processTurn (refusing 500 "overloaded") startedWorld).1) = 0
  /\ currentSpeakerId (app (processTurn (refusing 500 "overloaded") startedWorld).1) = Some "A".
Proof.
  assert (Hdue : turnDue startedWorld "A") by (repeat split; reflexivity).
  assert (Hp : determinePrompt (config (app startedWorld)) (messages (app startedWorld)) "A"
               = Return (Some "Tea or coffee")) by reflexivity.
  assert (He : (generateResponse (refusing 500 "overloaded") "A" "Tea or coffee"
                  (service startedWorld)).1
               = Throw (mkError "OpenAI API error (500): overloaded")) by reflexivity.
  destruct (processTurn_generation_failure (refusing 500 "overloaded") startedWorld "A"
              "Tea or coffee" _ Hdue Hp He) as (_ & Hmsgs & Hst & Hcount & Hsp & _).
  split_and!; [done|done|exact Hmsgs|exact Hst|exact Hcount|exact Hsp].
Defined.



Lemma generateCalls_app c1 c2 :
  generateCalls (c1 ++ c2) = (generateCalls c1 + generateCalls c2)%nat.
Proof. unfold generateCalls. by rewrite filter_app, length_app. Qed.


Lemma generateCalls_summary o : generateCalls (callsOfSummary o) = 0%nat.
Proof. by destruct o. Qed.

(** Breaks a handler into its branches. *)
Ltac branches :=
  repeat (simpl in *;
          match goal with
          | |- context [match ?x with _ => _ end] => destruct x eqn:?
          | |- context [if ?b then _ else _] => destruct b eqn:?
          end); simpl in *.

Lemma processTurn_limit ext w speaker :
  status (app w) = ACTIVE ->
  currentSpeakerId (app w) = Some speaker ->
  truthy speaker = true ->
  spent w ->
  processTurn ext w =
  (mkWorld (addMessage "SYSTEM" "Conversation Limit Reached." (setStatus COMPLETED (app w)))
     (service w), LimitReached).
Proof.
  intros Hst Hsp Htr Hspent. unfold spent, turnLimit in Hspent.
  unfold processTurn. rewrite Hsp, Hst, Htr. simpl.
  by rewrite (proj2 (Z.leb_le _ _) Hspent).
Qed.

Lemma processTurn_status ext w speaker :
  turnDue w speaker -> status (app (processTurn ext w).1) ≠ COMPLETED.
Proof.
  intros Hdue. rewrite (processTurn_due _ _ _ Hdue).
  destruct Hdue as (Hst & _). branches; rewrite ?Hst; done.
Qed.

Lemma processTurn_spent ext w :
  spent w ->
  spent (processTurn ext w).1 /\ generateCalls (callsOfTurn (processTurn ext w).2) = 0%nat.
Proof.
  intros Hspent. unfold processTurn.
  destruct (currentSpeakerId (app w)) as [speaker|]; [|done].
  destruct (negb _ || negb _); [done|].
  unfold spent, turnLimit in Hspent.
  by rewrite (proj2 (Z.leb_le _ _) Hspent).
Qed.

Lemma processTurn_within ext w :
  withinBudget w -> withinBudget (processTurn ext w).1.
Proof.
  intros [Hmax Hle]. unfold processTurn, withinBudget, turnLimit in *.
  branches; try done; split; try done; lia.
Qed.

Lemma findIndex_from_absent {A} (p : A -> bool) i l :
  Forall (fun x => p x = false) l -> findIndex_from p i l = -1.
Proof.
  intros H. revert i. induction H as [|x l Hx _ IH]; intros i; simpl; [done|].
  by rewrite Hx.
Qed.

Lemma findIndex_from_first {A} (p : A -> bool) i l k x :
  l !! k = Some x ->
  p x = true ->
  (forall j y, (j < k)%nat -> l !! j = Some y -> p y = false) ->
  findIndex_from p i l = i + Z.of_nat k.
Proof.
  revert i k. induction l as [|a l IH]; intros i k Hk Hx Hbefore; [done|].
  destruct k as [|k]; simpl in *.
  - simplify_eq. rewrite Hx. lia.
  - rewrite (Hbefore 0%nat a) by (done || lia).
    rewrite (IH (i + 1) k); [lia|done|done|].
    intros j y Hj Hy. apply (Hbefore (S j) y); [lia|done].
Qed.

Lemma findIndex_unique roster k a :
  NoDup (map agent_id roster) ->
  roster !! k = Some a ->
  findIndex (fun x => bool_decide (agent_id x = agent_id a)) roster = Z.of_nat k.
Proof.
  intros Hnd Hk. unfold findIndex.
  rewrite (findIndex_from_first _ 0 roster k a); [lia|exact Hk| |].
  { apply bool_decide_eq_true_2. reflexivity. }
  intros j y Hj Hy. apply bool_decide_eq_false_2. intros Heq.
  assert (j = k); [|lia].
  eapply NoDup_lookup; [exact Hnd| |].
  - rewrite list_lookup_fmap, Hy. done.
  - rewrite list_lookup_fmap, Hk. simpl. by rewrite Heq.
Qed.

Lemma findIndex_unknown roster speaker :
  speaker ∉ map agent_id roster ->
  findIndex (fun x => bool_decide (agent_id x = speaker)) roster = -1.
Proof.
  intros Hnot. apply findIndex_from_absent. apply Forall_forall. intros x Hx.
  apply bool_decide_eq_false_2. intros Heq. apply Hnot.
  apply list_elem_of_fmap. exists x. split; [by symmetry|done].
Qed.

Lemma nextSpeaker_at roster speaker k :
  roster ≠ [] ->
  findIndex (fun x => bool_decide (agent_id x = speaker)) roster = Z.of_nat k - 1 ->
  Return <$> (agent_id <$> roster !! (k mod length roster)%nat)
  = Some (nextSpeaker roster speaker).
Proof.
  intros Hne Hidx. unfold nextSpeaker. rewrite Hidx.
  destruct roster as [|a0 rest] eqn:E; [done|]. rewrite <- E in *.
  assert (Hn : (0 < length roster)%nat) by (subst; simpl; lia).
  replace (Z.of_nat k - 1 + 1) with (Z.of_nat k) by lia.
  rewrite Z.rem_mod_nonneg by lia.
  rewrite <- Nat2Z.inj_mod.
  unfold at_index. rewrite (proj2 (Z.ltb_ge _ _)) by lia.
  rewrite Nat2Z.id.
  destruct (lookup_lt_is_Some_2 roster (k mod length roster)%nat) as [a Ha].
  { apply Nat.mod_upper_bound. lia. }
  by rewrite Ha.
Qed.

Lemma findIndex_from_bound {A} (p : A -> bool) i l :
  findIndex_from p i l = -1 \/ i <= findIndex_from p i l.
Proof.
  revert i. induction l as [|x l IH]; intros i; simpl; [by left|].
  destruct (p x); [right; lia|]. destruct (IH (i + 1)); [by left|right; lia].
Qed.

Lemma nextSpeaker_next roster speaker :
  roster ≠ [] ->
  exists a,
    roster !! Z.to_nat
      ((findIndex (fun x => bool_decide (agent_id x = speaker)) roster + 1)
       `mod` Z.of_nat (length roster)) = Some a
    /\ nextSpeaker roster speaker = Return (agent_id a).
Proof.
  intros Hne.
  set (idx := findIndex (fun x => bool_decide (agent_id x = speaker)) roster).
  assert (Hidx : -1 <= idx).
  { unfold idx, findIndex. destruct (findIndex_from_bound
      (fun x => bool_decide (agent_id x = speaker)) 0 roster); lia. }
  pose proof (nextSpeaker_at roster speaker (Z.to_nat (idx + 1)) Hne) as Hat.
  rewrite Z2Nat.id in Hat by lia. specialize (Hat ltac:(fold idx; lia)).
  assert (Hn : (0 < length roster)%nat) by (destruct roster; simpl; [done|lia]).
  replace (Z.to_nat ((idx + 1) `mod` Z.of_nat (length roster)))
    with (Z.to_nat (idx + 1) mod length roster)%nat.
  2:{ rewrite <- (Nat2Z.id (_ mod _)%nat), Nat2Z.inj_mod, Z2Nat.id by lia. done. }
  destruct (roster !! (Z.to_nat (idx + 1) mod length roster)%nat) as [a|]; [|done].
  exists a. split; [done|]. simpl in Hat. by simplify_eq.
Qed.

Lemma processTurn_replied ext w :
  agents (config (app w)) ≠ [] ->
  replied (processTurn ext w).2 ->
  exists speaker responseText next,
    currentSpeakerId (app w) = Some speaker
    /\ nextSpeaker (agents (config (app w))) speaker = Return next
    /\ app (processTurn ext w).1 =
       setCurrentSpeakerId (Some next)
         (setTurnCount (fun prev => prev + 1) (addMessage speaker responseText (app w))).
Proof.
  intros Hne. unfold processTurn.
  destruct (currentSpeakerId (app w)) as [speaker|]; [|done].
  destruct (negb _ || negb _); [done|].
  destruct (_ <=? _); [done|].
  destruct (determinePrompt _ _ _) as [[promptText|]|]; [|done|done].
  destruct (generateResponse _ _ _ _) as [[responseText|e] svc]; [|done].
  destruct (nextSpeaker_next (agents (config (app w))) speaker Hne) as (a & _ & Hnext).
  rewrite Hnext. simpl. intros _. by exists speaker, responseText, (agent_id a).
Qed.

Lemma runTurns_rotation exts : forall w k,
  agents (config (app w)) ≠ [] ->
  NoDup (map agent_id (agents (config (app w)))) ->
  turnCount (app w) = Z.of_nat k ->
  currentSpeakerId (app w)
  = agent_id <$> agents (config (app w)) !! (k mod length (agents (config (app w))))%nat ->
  Forall replied (runTurns exts w).2 ->
  agents (config (app (runTurns exts w).1)) = agents (config (app w))
  /\ turnCount (app (runTurns exts w).1) = Z.of_nat (k + length exts)
  /\ currentSpeakerId (app (runTurns exts w).1)
     = agent_id <$> agents (config (app w))
                      !! ((k + length exts) mod length (agents (config (app w))))%nat.
Proof.
  induction exts as [|ext exts IH]; intros w k Hne Hnd Hcount Hspeaker Hall.
  - simpl. rewrite Nat.add_0_r. done.
  - simpl in *.
    pose proof (processTurn_replied ext w Hne) as Hstep.
    destruct (processTurn ext w) as [w1 o] eqn:E1.
    destruct (runTurns exts w1) as [w2 os] eqn:E2. simpl in *.
    apply Forall_cons in Hall as [Ho Hos].
    destruct (Hstep Ho) as (speaker & responseText & next & Hsp & Hnext & Hw1).
    set (roster := agents (config (app w))) in *.
    assert (Hroster : agents (config (app w1)) = roster) by (by rewrite Hw1).
    assert (Hn : (0 < length roster)%nat) by (destruct roster; simpl; [done|lia]).
    destruct (roster !! (k mod length roster)%nat) as [a|] eqn:Ha;
      rewrite Hsp in Hspeaker; simpl in Hspeaker; [|done].
    injection Hspeaker as ->.
    pose proof (findIndex_unique roster _ a Hnd Ha) as Hidx.
    pose proof (nextSpeaker_at roster (agent_id a) (S (k mod length roster)) Hne) as Hat.
    rewrite Hnext in Hat. specialize (Hat ltac:(lia)).
    replace (S (k mod length roster) mod length roster)%nat
      with (S k mod length roster)%nat in Hat.
    2:{ replace (S (k mod length roster)) with (k mod length roster + 1)%nat by lia.
        rewrite Nat.Div0.add_mod_idemp_l. f_equal. lia. }
    specialize (IH w1 (S k)). rewrite E2 in IH. simpl in IH.
    rewrite Hroster in IH.
    destruct IH as (IHa & IHc & IHs); try done.
    + rewrite Hw1. simpl. lia.
    + rewrite Hw1. simpl.
      destruct (roster !! (S k mod length roster)%nat); simpl in Hat |- *; by simplify_eq.
    + replace (k + S (length exts))%nat with (S k + length exts)%nat by lia. done.
Qed.

Section WithEnv.
Variable ENV_API_KEY : string.

Lemma effectiveKey_trimmed cfg :
  trim (getEffectiveApiKey ENV_API_KEY cfg) = getEffectiveApiKey ENV_API_KEY cfg.
Proof.
  unfold getEffectiveApiKey, or_else.
  destruct (truthy (trim (apiKey cfg))); [apply trim_idempotent|].
  destruct (truthy (trim ENV_API_KEY)); [apply trim_idempotent|done].
Qed.

Lemma initializeChats_effectiveKey cfg modelName roster rules st :
  truthy (getEffectiveApiKey ENV_API_KEY cfg) = true ->
  exists st', initializeChats (getEffectiveApiKey ENV_API_KEY cfg) modelName roster rules st
              = (Return tt, st').
Proof.
  intros H. apply ServiceFacts.initializeChats_accepts. by rewrite effectiveKey_trimmed.
Qed.

(** What a start that passes its two checks does to the component. *)
Lemma handleStart_runs (w : World) :
  truthy (trim (topic (config (app w)))) = true ->
  truthy (getEffectiveApiKey ENV_API_KEY (config (app w))) = true ->
  exists svc,
    handleStart ENV_API_KEY w =
    mkWorld
      (let key := getEffectiveApiKey ENV_API_KEY (config (app w)) in
       let s := setConfig
                  (withKey key (detectProviderFromApiKey key)
                     (firstModel (detectProviderFromApiKey key))) (app w) in
       let s := setMessages (fun _ => []) s in
       let s := setTurnCount (fun _ => 0) s in
       let s := setStatus ACTIVE s in
       let s := setHasSummarized false s in
       let s := setIsSummarizing false s in
       let s := addMessage "SYSTEM"
                  ("Discussion Started: " +:+ dquote +:+ topic (config (app w)) +:+ dquote) s in
       let s := setIsConfigOpen false s in
       match agents (config (app w)) with
       | firstAgent :: _ => setCurrentSpeakerId (Some (agent_id firstAgent)) s
       | [] => s
       end)
      svc.
Proof.
  intros Htopic Hkey. unfold handleStart. rewrite Htopic, Hkey. simpl.
  destruct (initializeChats_effectiveKey (config (app w))
              (firstModel (detectProviderFromApiKey
                             (getEffectiveApiKey ENV_API_KEY (config (app w)))))
              (agents (config (app w))) (globalRules (config (app w))) (service w) Hkey)
    as [st' ->].
  by exists st'.
Qed.

(** C7.  A valid start (a topic that is not blank, an effective key, a
    roster with a first agent; the sessions are then always initialised)
    leaves a transcript whose only entry is the SYSTEM announcement with the
    topic, a turn count of zero, the first configured agent as the current
    speaker, and the status ACTIVE. *)
Theorem handleStart_valid (w : World) firstAgent others :
  truthy (trim (topic (config (app w)))) = true ->
  truthy (getEffectiveApiKey ENV_API_KEY (config (app w))) = true ->
  agents (config (app w)) = firstAgent :: others ->
  let w' := handleStart ENV_API_KEY w in
  messages (app w') =
    [mkMessage "SYSTEM"
       ("Discussion Started: " +:+ dquote +:+ topic (config (app w)) +:+ dquote)]
  /\ turnCount (app w') = 0
  /\ currentSpeakerId (app w') = Some (agent_id firstAgent)
  /\ status (app w') = ACTIVE.
Proof.
  intros Htopic Hkey Hagents.
  destruct (handleStart_runs w Htopic Hkey) as [svc Hrun].
  simpl. rewrite Hrun, Hagents. simpl. by split_and!.
Qed.

Lemma firstSpeakerIfNone_messages now s :
  messages (firstSpeakerIfNone now s) = messages s.
Proof.
  unfold firstSpeakerIfNone. destruct (agents (config now)); [done|].
  by destruct (negb _).
Qed.



Lemma run_cons ev evs w :
  run ENV_API_KEY (ev :: evs) w =
  ((run ENV_API_KEY evs (step ENV_API_KEY ev w).1).1,
   ((step ENV_API_KEY ev w).2 ++ (run ENV_API_KEY evs (step ENV_API_KEY ev w).1).2)%list).
Proof.
  simpl. destruct (step ENV_API_KEY ev w) as [w1 c1]. simpl.
  by destruct (run ENV_API_KEY evs w1).
Qed.

Lemma firstSpeakerIfNone_latch now s :
  hasSummarizedRef (firstSpeakerIfNone now s) = hasSummarizedRef s.
Proof. unfold firstSpeakerIfNone. by branches. Qed.

Lemma handleUserSubmit_latch w :
  hasSummarizedRef (app (handleUserSubmit ENV_API_KEY w)) = hasSummarizedRef (app w).
Proof.
  unfold handleUserSubmit. branches; rewrite ?firstSpeakerIfNone_latch; done.
Qed.

Lemma processTurn_latch ext w :
  hasSummarizedRef (app (processTurn ext w).1) = hasSummarizedRef (app w).
Proof. unfold processTurn. by branches. Qed.


Lemma summaryEffect_fires ext w :
  status (app w) = COMPLETED ->
  hasSummarizedRef (app w) = false ->
  messages (app w) ≠ [] ->
  (exists r, (summaryEffect ENV_API_KEY ext w).2 = Summarized r)
  /\ hasSummarizedRef (app (summaryEffect ENV_API_KEY ext w).1) = true.
Proof.
  intros Hst Hl Hne. unfold summaryEffect. rewrite Hst, Hl. simpl.
  destruct (messages (app w)) eqn:E; [done|].
  destruct (generateMeetingSummary _ _ _ _ _ _ _ _) as [[t|e] svc]; simpl; eauto.
Qed.







Lemma handleUserSubmit_budget w :
  turnCount (app (handleUserSubmit ENV_API_KEY w)) = turnCount (app w)
  /\ maxTurns (config (app (handleUserSubmit ENV_API_KEY w))) = maxTurns (config (app w))
  /\ agents (config (app (handleUserSubmit ENV_API_KEY w))) = agents (config (app w)).
Proof.
  unfold handleUserSubmit, firstSpeakerIfNone. by branches.
Qed.

Lemma summaryEffect_budget ext w :
  turnCount (app (summaryEffect ENV_API_KEY ext w).1) = turnCount (app w)
  /\ config (app (summaryEffect ENV_API_KEY ext w).1) = config (app w).
Proof. unfold summaryEffect. by branches. Qed.

Lemma handleStart_within w :
  withinBudget w -> withinBudget (handleStart ENV_API_KEY w).
Proof.
  intros [Hmax Hle]. unfold handleStart, withinBudget, turnLimit in *.
  branches; try done; split; try done; lia.
Qed.

Lemma step_spent ev w :
  restarts ev = false ->
  spent w ->
  spent (step ENV_API_KEY ev w).1 /\ generateCalls (step ENV_API_KEY ev w).2 = 0%nat.
Proof.
  intros Hev Hspent. destruct ev; try done; simpl.
  - destruct (handleUserSubmit_budget w) as (Ht & Hm & Ha).
    unfold spent, turnLimit in *. by rewrite Ht, Hm, Ha.
  - destruct (processTurn_spent ext w Hspent) as [H1 H2].
    by destruct (processTurn ext w).
  - destruct (summaryEffect_budget ext w) as (Ht & Hc).
    destruct (summaryEffect ENV_API_KEY ext w) as [w1 o]. simpl in *.
    unfold spent. rewrite Ht, Hc. split; [done|apply generateCalls_summary].
Qed.

Lemma run_spent evs w :
  Forall (fun ev => restarts ev = false) evs ->
  spent w ->
  generateCalls (run ENV_API_KEY evs w).2 = 0%nat.
Proof.
  intros Hevs. revert w. induction Hevs as [|ev evs Hev _ IH]; intros w Hspent; [done|].
  rewrite run_cons. simpl. rewrite generateCalls_app.
  destruct (step_spent ev w Hev Hspent) as [Hs ->]. by rewrite IH.
Qed.

Lemma step_within ev w :
  withinBudget w -> withinBudget (step ENV_API_KEY ev w).1.
Proof.
  intros Hw. destruct ev; simpl; try done.
  - by apply handleStart_within.
  - destruct Hw as [Hmax Hle]. unfold withinBudget, turnLimit in *. simpl. split; [done|lia].
  - destruct (handleUserSubmit_budget w) as (Ht & Hm & Ha).
    unfold withinBudget, turnLimit in *. by rewrite Ht, Hm, Ha.
  - pose proof (processTurn_within ext w Hw). by destruct (processTurn ext w).
  - destruct (summaryEffect_budget ext w) as (Ht & Hc).
    destruct (summaryEffect ENV_API_KEY ext w) as [w1 o]. simpl in *.
    unfold withinBudget. by rewrite Ht, Hc.
Qed.

Lemma run_within evs w :
  withinBudget w -> withinBudget (run ENV_API_KEY evs w).1.
Proof.
  revert w. induction evs as [|ev evs IH]; intros w Hw; [done|].
  rewrite run_cons. simpl. by apply IH, step_within.
Qed.

Lemma initialWorld_within cfg : 0 <= maxTurns cfg -> withinBudget (initialWorld cfg).
Proof. intros H. split; [done|]. unfold turnLimit. simpl. lia. Qed.

(** C2.  From ACTIVE with a speaker set, the turn step moves to COMPLETED
    exactly when the turn count has reached the budget, maxTurns times the
    number of agents; on that step it appends the SYSTEM limit message and
    makes no call to the generator, and no later event of the conversation
    (anything but a Start or a Reset) makes one; and in every world reached
    from the mounted component with a maxTurns that is not negative, the
    count never exceeds the budget, so the transition happens at equality. *)
Theorem limit_reached ext w :
  status (app w) = ACTIVE ->
  speakerSet (currentSpeakerId (app w)) = true ->
  let limit := turnLimit (config (app w)) in
  let w' := (processTurn ext w).1 in
  (status (app w') = COMPLETED <-> limit <= turnCount (app w))
  /\ (limit <= turnCount (app w) ->
      processTurn ext w =
        (mkWorld
           (addMessage "SYSTEM" "Conversation Limit Reached." (setStatus COMPLETED (app w)))
           (service w), LimitReached)
      /\ forall evs, Forall (fun ev => restarts ev = false) evs ->
           generateCalls (run ENV_API_KEY evs w').2 = 0%nat)
  /\ (forall cfg evs,
        0 <= maxTurns cfg ->
        w = (run ENV_API_KEY evs (initialWorld cfg)).1 ->
        turnCount (app w) <= limit
        /\ (status (app w') = COMPLETED <-> turnCount (app w) = limit)).
Proof.
  intros Hst Hsp limit w'.
  destruct (currentSpeakerId (app w)) as [speaker|] eqn:Hspeaker; [|done].
  simpl in Hsp.
  assert (Hiff : status (app w') = COMPLETED <-> limit <= turnCount (app w)).
  { destruct (Z.le_gt_cases limit (turnCount (app w))) as [Hle|Hgt].
    - unfold w'. rewrite (processTurn_limit ext w speaker Hst Hspeaker Hsp Hle). done.
    - split; [|lia]. intros Hc. exfalso.
      by apply (processTurn_status ext w speaker). }
  split_and!; [done| |].
  - intros Hle. split; [by apply (processTurn_limit ext w speaker)|].
    intros evs Hevs. apply run_spent; [done|].
    unfold w'. rewrite (processTurn_limit ext w speaker Hst Hspeaker Hsp Hle). done.
  - intros cfg evs Hmax ->.
    destruct (run_within evs _ (initialWorld_within cfg Hmax)) as [_ Hle].
    fold limit in Hle. split; [done|]. rewrite Hiff. lia.
Qed.

Lemma handleStart_agents w :
  agents (config (app (handleStart ENV_API_KEY w))) = agents (config (app w)).
Proof. unfold handleStart. by branches. Qed.

(** C5.  On a roster with a first agent: a speaker whose id the roster does
    not have is followed by the first agent, without a throw; a turn that
    produced a reply moves the speaker to
    [agents[(findIndex(current) + 1) mod agentCount]] and adds one to the
    turn count; and with ids that are unique, after N turns that produced a
    reply from a valid start the turn count is N and the speaker is
    [agents[N mod agentCount]]. *)
Theorem round_robin w firstAgent others :
  agents (config (app w)) = firstAgent :: others ->
  let roster := agents (config (app w)) in
  (forall speaker,
     speaker ∉ map agent_id roster ->
     nextSpeaker roster speaker = Return (agent_id firstAgent))
  /\ (forall ext,
        replied (processTurn ext w).2 ->
        exists speaker next,
          currentSpeakerId (app w) = Some speaker
          /\ roster !! Z.to_nat
               ((findIndex (fun x => bool_decide (agent_id x = speaker)) roster + 1)
                `mod` Z.of_nat (length roster)) = Some next
          /\ currentSpeakerId (app (processTurn ext w).1) = Some (agent_id next)
          /\ turnCount (app (processTurn ext w).1) = turnCount (app w) + 1)
  /\ (NoDup (map agent_id roster) ->
      truthy (trim (topic (config (app w)))) = true ->
      truthy (getEffectiveApiKey ENV_API_KEY (config (app w))) = true ->
      forall exts,
        Forall replied (runTurns exts (handleStart ENV_API_KEY w)).2 ->
        turnCount (app (runTurns exts (handleStart ENV_API_KEY w)).1)
        = Z.of_nat (length exts)
        /\ currentSpeakerId (app (runTurns exts (handleStart ENV_API_KEY w)).1)
           = agent_id <$> roster !! (length exts mod length roster)%nat).
Proof.
  intros Hagents roster.
  assert (Hne : roster ≠ []) by (unfold roster; by rewrite Hagents).
  split_and!.
  - intros speaker Hnot.
    destruct (nextSpeaker_next roster speaker Hne) as (a & Ha & ->).
    rewrite (findIndex_unknown _ _ Hnot) in Ha.
    replace ((-1 + 1) `mod` Z.of_nat (length roster)) with 0 in Ha
      by (change (-1 + 1) with 0; by rewrite Zmod_0_l).
    unfold roster in Ha. rewrite Hagents in Ha. simpl in Ha. by simplify_eq.
  - intros ext Hr.
    destruct (processTurn_replied ext w Hne Hr)
      as (speaker & responseText & next & Hsp & Hnext & Hw1).
    destruct (nextSpeaker_next roster speaker Hne) as (a & Ha & Hnext').
    fold roster in Hnext. rewrite Hnext' in Hnext. injection Hnext as <-.
    exists speaker, a. rewrite Hw1. by split_and!.
  - intros Hnd Htopic Hkey exts Hall.
    destruct (handleStart_runs w Htopic Hkey) as [svc Hstart].
    assert (Hcount : turnCount (app (handleStart ENV_API_KEY w)) = 0)
      by (rewrite Hstart, Hagents; done).
    assert (Hspeaker : currentSpeakerId (app (handleStart ENV_API_KEY w))
                       = Some (agent_id firstAgent))
      by (rewrite Hstart, Hagents; done).
    clear Hstart.
    pose proof (handleStart_agents w) as Hsame. fold roster in Hsame.
    destruct (runTurns_rotation exts (handleStart ENV_API_KEY w) 0) as (_ & Hc & Hs).
    + by rewrite Hsame.
    + by rewrite Hsame.
    + done.
    + rewrite Hspeaker, Hsame. unfold roster. rewrite Hagents.
      by rewrite Nat.Div0.mod_0_l.
    + done.
    + rewrite Hsame in Hs. done.
Qed.

End WithEnv.





(** The sample conversation at its budget of two turns: the next step
    completes it, and a later submission reactivates it without a call. *)
Lemma limit_reached_witness :
  status (app spentWorld) = ACTIVE
  /\ speakerSet (currentSpeakerId (app spentWorld)) = true
  /\ turnCount (app spentWorld) = 2
  /\ turnLimit (config (app spentWorld)) = 2
  /\ status (app (processTurn (answering "unused") spentWorld).1) = COMPLETED
  /\ generateCalls
       (run EmptyString [TypeInput "More"; Submit; Turn (answering "more")]
          (processTurn (answering "unused") spentWorld).1).2 = 0%nat.
Proof.
  assert (Hst : status (app spentWorld) = ACTIVE) by reflexivity.
  assert (Hsp : speakerSet (currentSpeakerId (app spentWorld)) = true) by reflexivity.
  assert (Hcount : turnCount (app spentWorld) = 2) by reflexivity.
  assert (Hlimit : turnLimit (config (app spentWorld)) = 2) by reflexivity.
  assert (Hle : turnLimit (config (app spentWorld)) <= turnCount (app spentWorld))
    by (rewrite Hcount, Hlimit; lia).
  destruct (limit_reached EmptyString (answering "unused") spentWorld Hst Hsp)
    as (Hiff & Hdone & _).
  destruct (Hdone Hle) as [_ Hquiet].
  split_and!; [exact Hst|exact Hsp|exact Hcount|exact Hlimit|by apply Hiff|].
  apply Hquiet. repeat constructor.
Defined.

(** Four turns of a panel of three: the count is four and the speaker is
    the second agent. *)
Lemma round_robin_witness :
  agents (config (app (initialWorld panelConfig))) = [agentA; agentB; agentC]
  /\ NoDup (map agent_id [agentA; agentB; agentC])
  /\ turnCount
       (app (runTurns
               [answering "One."; answering "Two."; answering "Three."; answering "Four."]
               (handleStart EmptyString (initialWorld panelConfig))).1) = 4
  /\ currentSpeakerId
       (app (runTurns
               [answering "One."; answering "Two."; answering "Three."; answering "Four."]
               (handleStart EmptyString (initialWorld panelConfig))).1) = Some "B".
Proof.
  assert (Hnd : NoDup (map agent_id [agentA; agentB; agentC])).
  { apply (bool_decide_unpack _). exact I. }
  destruct (round_robin EmptyString (initialWorld panelConfig) agentA [agentB; agentC] eq_refl)
    as (_ & _ & Hrun).
  destruct (Hrun Hnd eq_refl eq_refl
              [answering "One."; answering "Two."; answering "Three."; answering "Four."])
    as [Hcount Hspeaker].
  { change (Forall replied
              [ Generated "A" "Tea or coffee" (Return "One.");
                Generated "B" "Dr. Logicの発言: One." (Return "Two.");
                Generated "C" "Poet Willowの発言: Two." (Return "Three.");
                Generated "A" "Criticの発言: Three." (Return "Four.") ]).
    repeat constructor. }
  split_and!; [reflexivity|exact Hnd|exact Hcount|exact Hspeaker].
Defined.

(** The start of the sample conversation. *)
Lemma handleStart_valid_witness :
  truthy (trim (topic sampleConfig)) = true
  /\ truthy (getEffectiveApiKey EmptyString sampleConfig) = true
  /\ messages (app startedWorld)
     = [mkMessage "SYSTEM" ("Discussion Started: " +:+ dquote +:+ "Tea or coffee" +:+ dquote)]
  /\ turnCount (app startedWorld) = 0
  /\ currentSpeakerId (app startedWorld) = Some "A"
  /\ status (app startedWorld) = ACTIVE.
Proof.
  split; [reflexivity|]. split; [reflexivity|].
  exact (handleStart_valid EmptyString (initialWorld sampleConfig) agentA [agentB]
           eq_refl eq_refl eq_refl).
Defined.

End AppFacts.

(** * Further properties of the service *)

Module ServiceProps.
Import Js Service App Spec Samples Derived ServiceFacts AppFacts.

(** ** Provider detection *)


Lemma detect_trim k : detectProviderFromApiKey (trim k) = detectProviderFromApiKey k.
Proof. unfold detectProviderFromApiKey. by rewrite trim_idempotent. Qed.


(** ** The sessions that [initializeChats] installs *)

Section Inserts.
Context {V : Type} (g : AgentConfig -> V).

Lemma insertAll_other m roster id :
  id ∉ map agent_id roster -> insertAll g m roster !! id = m !! id.
Proof.
  revert m. induction roster as [|a roster IH]; intros m Hid; [done|].
  simpl in *. apply not_elem_of_cons in Hid as [Hne Hid].
  rewrite IH by done. by rewrite lookup_insert_ne.
Qed.

Lemma insertAll_is_Some m roster id :
  is_Some (insertAll g m roster !! id) <-> is_Some (m !! id) \/ id ∈ map agent_id roster.
Proof.
  revert m. induction roster as [|a roster IH]; intros m; simpl.
  - rewrite elem_of_nil. tauto.
  - rewrite IH, elem_of_cons. destruct (decide (agent_id a = id)) as [<-|Hne].
    + rewrite lookup_insert_eq. split; [by right; left|]. intros _. left. eauto.
    + rewrite lookup_insert_ne by done. split; [tauto|].
      intros [H|[->|H]]; tauto.
Qed.

Lemma insertAll_lookup m roster a :
  a ∈ roster -> NoDup (map agent_id roster) ->
  insertAll g m roster !! agent_id a = Some (g a).
Proof.
  revert m. induction roster as [|x roster IH]; intros m Ha Hnd; [by apply elem_of_nil in Ha|].
  simpl in *. apply NoDup_cons in Hnd as [Hx Hnd].
  apply elem_of_cons in Ha as [->|Ha].
  - rewrite insertAll_other by done. apply lookup_insert_eq.
  - by apply IH.
Qed.

End Inserts.

Lemma forEach_fold roster (body : AgentConfig -> M unit)
    (step : AgentConfig -> Service.State -> Service.State) :
  (forall a st, body a st = (Return tt, step a st)) ->
  forall st, forEach roster body st = (Return tt, foldl (fun st a => step a st) st roster).
Proof.
  intros Hbody. induction roster as [|a roster IH]; intros st; [done|].
  simpl. unfold mbind, M_bind. by rewrite Hbody, IH.
Qed.

Lemma fold_chats clientKey rules roster st :
  foldl (fun st a =>
           set_chatSessions
             (<[agent_id a := mkChat clientKey (activeModel st)
                                (combinedSystemInstruction a rules)]> (chatSessions st)) st)
    st roster
  = set_chatSessions
      (insertAll (freshChat clientKey (activeModel st) rules) (chatSessions st) roster) st.
Proof.
  revert st. induction roster as [|a roster IH]; intros st; [by destruct st|].
  simpl. rewrite IH. by destruct st.
Qed.

Lemma fold_messages rules roster st :
  foldl (fun st a =>
           set_openAISessions
             (<[agent_id a := [mkOA system (combinedSystemInstruction a rules)]]>
                (openAISessions st)) st)
    st roster
  = set_openAISessions (insertAll (freshMessages rules) (openAISessions st) roster) st.
Proof.
  revert st. induction roster as [|a roster IH]; intros st; [by destruct st|].
  simpl. rewrite IH. by destruct st.
Qed.

Lemma installSessions_installed key clientKey modelName roster rules st :
  installSessions key clientKey modelName roster rules st
  = (Return tt, installed key clientKey modelName roster rules).
Proof.
  unfold installSessions, installed, mbind, M_bind, modify, get. simpl.
  case_decide.
  - rewrite (forEach_fold _ _ (fun a st =>
        set_chatSessions
          (<[agent_id a := mkChat clientKey (activeModel st)
                             (combinedSystemInstruction a rules)]> (chatSessions st)) st))
      by done.
    by rewrite fold_chats.
  - rewrite (forEach_fold _ _ (fun a st =>
        set_openAISessions
          (<[agent_id a := [mkOA system (combinedSystemInstruction a rules)]]>
             (openAISessions st)) st))
      by done.
    by rewrite fold_messages.
Qed.

Lemma initializeChats_installed apiKey modelName roster rules st :
  truthy (trim apiKey) = true ->
  initializeChats apiKey modelName roster rules st
  = (Return tt, installed (trim apiKey) apiKey modelName roster rules).
Proof.
  intros H. unfold initializeChats. rewrite H. apply installSessions_installed.
Qed.

Lemma installed_hasSession key clientKey modelName roster rules id :
  hasSession (installed key clientKey modelName roster rules) id <-> id ∈ map agent_id roster.
Proof.
  unfold hasSession, installed.
  destruct (decide (detectProviderFromApiKey key = gemini)) as [Hp|Hp]; simpl.
  - rewrite decide_True by done. rewrite insertAll_is_Some, lookup_empty.
    split; [intros [[? ?]|?]; done|by right].
  - rewrite decide_False by done. rewrite insertAll_is_Some, lookup_empty.
    split; [intros [[? ?]|?]; done|by right].
Qed.

Lemma installed_bindings key clientKey modelName roster rules :
  activeProvider (installed key clientKey modelName roster rules) = detectProviderFromApiKey key
  /\ activeModel (installed key clientKey modelName roster rules)
     = or_else modelName (getDefaultModelForProvider (detectProviderFromApiKey key))
  /\ activeApiKey (installed key clientKey modelName roster rules) = key.
Proof. unfold installed. by case_decide. Qed.

(** X2.  With a key that is not blank, [initializeChats] returns and leaves
    the service bound to the provider detected from the key, to the trimmed
    key and to the given model (the default model of the provider when none
    is given); the agents with a session are then exactly those of the
    roster; and nothing of the bindings of an earlier conversation survives:
    the result is the same from every earlier state. *)
Theorem initializeChats_sessions apiKey modelName roster rules st :
  truthy (trim apiKey) = true ->
  let st' := (initializeChats apiKey modelName roster rules st).2 in
  (initializeChats apiKey modelName roster rules st).1 = Return tt
  /\ activeProvider st' = detectProviderFromApiKey apiKey
  /\ activeApiKey st' = trim apiKey
  /\ activeModel st' =
     or_else modelName (getDefaultModelForProvider (detectProviderFromApiKey apiKey))
  /\ (forall id, hasSession st' id <-> id ∈ map agent_id roster)
  /\ (forall earlier,
        initializeChats apiKey modelName roster rules earlier
        = initializeChats apiKey modelName roster rules st).
Proof.
  intros Hkey st'.
  pose proof (initializeChats_installed apiKey modelName roster rules st Hkey) as Hst.
  assert (Hst' : st' = installed (trim apiKey) apiKey modelName roster rules)
    by (unfold st'; by rewrite Hst).
  destruct (installed_bindings (trim apiKey) apiKey modelName roster rules) as (Hp & Hm & Hk).
  rewrite detect_trim in Hp, Hm.
  split_and!.
  - by rewrite Hst.
  - by rewrite Hst'.
  - by rewrite Hst'.
  - by rewrite Hst'.
  - intros id. rewrite Hst'. apply installed_hasSession.
  - intros earlier. by rewrite Hst, initializeChats_installed.
Qed.

Lemma initializeChats_sessions_witness :
  truthy (trim " sk-test ") = true
  /\ activeApiKey
       (initializeChats " sk-test " EmptyString [agentA; agentB] "Be brief" earlierSessions).2
     = "sk-test".
Proof.
  split; [reflexivity|].
  refine (proj1 (proj2 (proj2 (initializeChats_sessions " sk-test " EmptyString
                                 [agentA; agentB] "Be brief" earlierSessions eq_refl)))).
Defined.

(** X3.  After [initializeChats] with a key that is not blank and a roster
    of distinct ids, the session of every agent of the roster holds its
    persona and nothing else: under gemini a chat of the active model whose
    system instruction is the persona followed by the global rules, made
    with the key as it was given (not trimmed), and no message history at
    all; under every other provider a history of one system message with
    the same text, and no SDK chat at all. *)
Theorem initializeChats_personas apiKey modelName roster rules st a :
  truthy (trim apiKey) = true ->
  NoDup (map agent_id roster) ->
  a ∈ roster ->
  let st' := (initializeChats apiKey modelName roster rules st).2 in
  (detectProviderFromApiKey apiKey = gemini ->
   chatSessions st' !! agent_id a
   = Some (mkChat apiKey (activeModel st') (combinedSystemInstruction a rules))
   /\ openAISessions st' = ∅)
  /\ (detectProviderFromApiKey apiKey ≠ gemini ->
      openAISessions st' !! agent_id a
      = Some [mkOA system (combinedSystemInstruction a rules)]
      /\ chatSessions st' = ∅).
Proof.
  intros Hkey Hnd Ha st'.
  assert (Hst' : st' = installed (trim apiKey) apiKey modelName roster rules)
    by (unfold st'; by rewrite initializeChats_installed).
  rewrite Hst'. unfold installed. rewrite detect_trim.
  split; intros Hp.
  - rewrite decide_True by done. simpl. split; [|done].
    by rewrite (insertAll_lookup _ _ _ a Ha Hnd).
  - rewrite decide_False by done. simpl. split; [|done].
    by rewrite (insertAll_lookup _ _ _ a Ha Hnd).
Qed.

Lemma initializeChats_personas_witness :
  truthy (trim " sk-test ") = true
  /\ openAISessions
       (initializeChats " sk-test " EmptyString [agentA; agentB] "Be brief" earlierSessions).2
       !! "B"
     = Some [mkOA system (combinedSystemInstruction agentB "Be brief")].
Proof.
  assert (Hnd : NoDup (map agent_id [agentA; agentB])).
  { apply (bool_decide_unpack _). exact I. }
  assert (Hb : agentB ∈ [agentA; agentB]).
  { apply elem_of_cons; right; apply elem_of_cons; by left. }
  destruct (initializeChats_personas " sk-test " EmptyString [agentA; agentB] "Be brief"
              earlierSessions agentB eq_refl Hnd Hb) as [_ Hother].
  split; [reflexivity|]. apply Hother. discriminate.
Defined.

(** ** What a call leaves in the service *)

Lemma generateResponse_bindings ext agentId inputMessage st :
  let st' := (generateResponse ext agentId inputMessage st).2 in
  activeProvider st' = activeProvider st
  /\ activeModel st' = activeModel st
  /\ activeApiKey st' = activeApiKey st
  /\ chatSessions st' = chatSessions st
  /\ forall id, hasSession st' id <-> hasSession st id.
Proof.
  assert (Hsame : activeProvider st = activeProvider st
                  /\ activeModel st = activeModel st
                  /\ activeApiKey st = activeApiKey st
                  /\ chatSessions st = chatSessions st
                  /\ forall id, hasSession st id <-> hasSession st id) by done.
  service_run.
  destruct (decide (activeProvider st = gemini)) as [Hp|Hp].
  - destruct (chatSessions st !! agentId) as [session|]; [|done].
    by destruct (sendMessage ext session inputMessage).
  - destruct (openAISessions st !! agentId) as [history|] eqn:Hh; [|done].
    destruct (fetch ext _) as [?|? []|[?|data]]; try done.
    destruct (firstChoiceContent data) as [trimmed|]; [|done].
    simpl. split_and!; try done. intros id. unfold hasSession. simpl.
    rewrite !decide_False by done.
    destruct (decide (id = agentId)) as [->|Hne].
    + rewrite lookup_insert_eq, Hh. split; eauto.
    + by rewrite lookup_insert_ne.
Qed.

Lemma generateMeetingSummary_state ext msgs topic rules key prov modelName st :
  (generateMeetingSummary ext msgs topic rules key prov modelName st).2 = st.
Proof.
  unfold generateMeetingSummary, mbind, M_bind, get, ret, throw, rethrow. simpl.
  destruct (negb _); [done|]. case_decide.
  - by destruct (generateContent _ _ _ _).
  - destruct (fetch ext _) as [?|? []|[?|data]]; try done.
    by destruct (firstChoiceContent data).
Qed.

Lemma opt_or_else_truthy t d : truthy d = true -> truthy (opt_or_else t d) = true.
Proof.
  intros Hd. destruct t as [s|]; simpl; [|done].
  unfold or_else. by destruct (truthy s) eqn:Hs.
Qed.

(** X4.  A call of [generateResponse] that returns never changes the active
    provider, model or key, nor the SDK chats.  Under gemini it changes
    nothing at all (the SDK chat keeps the turns).  Under every other
    provider the history of the agent grows by exactly the prompt, as a
    user message, and the answer returned, as an assistant message; the
    histories of all other agents are as before. *)
Theorem generateResponse_remembers_exchange ext agentId inputMessage st answer :
  (generateResponse ext agentId inputMessage st).1 = Return answer ->
  let st' := (generateResponse ext agentId inputMessage st).2 in
  activeProvider st' = activeProvider st
  /\ activeModel st' = activeModel st
  /\ activeApiKey st' = activeApiKey st
  /\ chatSessions st' = chatSessions st
  /\ (activeProvider st = gemini -> st' = st)
  /\ (activeProvider st ≠ gemini ->
      exists history,
        openAISessions st !! agentId = Some history
        /\ openAISessions st' !! agentId
           = Some (history ++ [mkOA user inputMessage; mkOA assistant answer])%list
        /\ forall other, other ≠ agentId ->
             openAISessions st' !! other = openAISessions st !! other).
Proof.
  service_run.
  destruct (decide (activeProvider st = gemini)) as [Hp|Hp].
  - destruct (chatSessions st !! agentId) as [session|]; [|done].
    destruct (sendMessage ext session inputMessage); [done|].
    simpl. intros _. by split_and!.
  - destruct (openAISessions st !! agentId) as [history|] eqn:Hh; [|done].
    destruct (fetch ext _) as [?|? []|[?|data]]; try done.
    destruct (firstChoiceContent data) as [trimmed|]; [|done].
    simpl. intros [= <-]. split_and!; try done.
    intros _. exists history. split_and!; [done|apply lookup_insert_eq|].
    intros other Hne. by rewrite lookup_insert_ne.
Qed.

Lemma generateResponse_remembers_exchange_witness :
  (generateResponse (answering "Tea.") "A" "Tea or coffee" sampleSessions).1 = Return "Tea."
  /\ openAISessions
       (generateResponse (answering "Tea.") "A" "Tea or coffee" sampleSessions).2 !! "B"
     = openAISessions sampleSessions !! "B".
Proof.
  destruct (generateResponse_remembers_exchange (answering "Tea.") "A" "Tea or coffee"
              sampleSessions "Tea." eq_refl) as (_ & _ & _ & _ & _ & Hother).
  destruct Hother as (history & _ & _ & Hrest); [discriminate|].
  split; [reflexivity|]. apply Hrest. discriminate.
Defined.

(** X5.  The answer that [generateResponse] returns is never the empty
    string (a missing or empty text is replaced by the placeholder), and
    under every provider but gemini it has no white space around it. *)
Theorem generateResponse_reply ext agentId inputMessage st answer :
  (generateResponse ext agentId inputMessage st).1 = Return answer ->
  truthy answer = true
  /\ (activeProvider st ≠ gemini -> trim answer = answer).
Proof.
  service_run.
  destruct (decide (activeProvider st = gemini)) as [Hp|Hp].
  - destruct (chatSessions st !! agentId) as [session|]; [|done].
    destruct (sendMessage ext session inputMessage) as [|t]; [done|].
    simpl. intros [= <-]. split; [by apply opt_or_else_truthy|done].
  - destruct (openAISessions st !! agentId) as [history|]; [|done].
    destruct (fetch ext _) as [?|? []|[?|data]]; try done.
    destruct (firstChoiceContent data) as [trimmed|] eqn:Hc; [|done].
    simpl. intros [= <-]. split; [by apply opt_or_else_truthy|]. intros _.
    unfold firstChoiceContent, optTrim in Hc.
    destruct (prop "content" _) as [[]|]; simplify_eq; simpl; try done.
    unfold or_else. destruct (truthy (trim s)); [apply trim_idempotent|done].
Qed.

Lemma generateResponse_reply_witness :
  (generateResponse (answering "  Tea.  ") "A" "Tea or coffee" sampleSessions).1 = Return "Tea."
  /\ truthy "Tea." = true.
Proof.
  split; [reflexivity|].
  apply (generateResponse_reply (answering "  Tea.  ") "A" "Tea or coffee" sampleSessions "Tea.").
  reflexivity.
Defined.

(** X6.  [generateMeetingSummary] never changes the bindings of the service,
    however it ends; with a blank key it throws before any request,
    whatever the network would answer; a summary it returns is never the
    empty string; and the SYSTEM messages of the transcript have no
    influence on it: two transcripts with the same messages apart from
    SYSTEM ones give the same call. *)
Theorem generateMeetingSummary_service ext msgs topic rules key prov modelName st :
  (generateMeetingSummary ext msgs topic rules key prov modelName st).2 = st
  /\ (truthy (trim key) = false ->
      (generateMeetingSummary ext msgs topic rules key prov modelName st).1
      = Throw (mkError "API Key is missing for summary generation."))
  /\ (forall summary,
        (generateMeetingSummary ext msgs topic rules key prov modelName st).1 = Return summary ->
        truthy summary = true)
  /\ (forall msgs',
        filter (fun m => senderId m ≠ "SYSTEM") msgs'
        = filter (fun m => senderId m ≠ "SYSTEM") msgs ->
        generateMeetingSummary ext msgs' topic rules key prov modelName st
        = generateMeetingSummary ext msgs topic rules key prov modelName st).
Proof.
  split_and!.
  - apply generateMeetingSummary_state.
  - intros Hk. unfold generateMeetingSummary, mbind, M_bind, get, throw. simpl. by rewrite Hk.
  - unfold generateMeetingSummary, mbind, M_bind, get, ret, throw, rethrow. simpl.
    intros summary. destruct (negb _); [done|]. case_decide.
    + destruct (generateContent _ _ _ _) as [|t]; [done|].
      simpl. intros [= <-]. by apply opt_or_else_truthy.
    + destruct (fetch ext _) as [?|? []|[?|data]]; try done.
      destruct (firstChoiceContent data) as [t|]; [|done].
      simpl. intros [= <-]. by apply opt_or_else_truthy.
  - intros msgs' Hsame. unfold generateMeetingSummary, summaryPrompt, summaryTranscript.
    by rewrite Hsame.
Qed.

(** ** The memory of a session *)

Lemma generateResponse_history ext agentId inputMessage st id :
  activeProvider st ≠ gemini ->
  openAISessions (generateResponse ext agentId inputMessage st).2 !! id
  = match (generateResponse ext agentId inputMessage st).1 with
    | Return answer =>
        if bool_decide (agentId = id)
        then (fun h => h ++ [mkOA user inputMessage; mkOA assistant answer])%list
               <$> openAISessions st !! id
        else openAISessions st !! id
    | Throw _ => openAISessions st !! id
    end.
Proof.
  intros Hp. service_run. rewrite decide_False by done.
  destruct (openAISessions st !! agentId) as [history|] eqn:Hh; [|done].
  destruct (fetch ext _) as [?|? []|[?|data]]; try done.
  destruct (firstChoiceContent data) as [trimmed|]; [|done].
  simpl. case_bool_decide as Hid.
  - subst id. by rewrite lookup_insert_eq, Hh.
  - by rewrite lookup_insert_ne.
Qed.

Lemma serve_history calls : forall st agentId history,
  activeProvider st ≠ gemini ->
  openAISessions st !! agentId = Some history ->
  openAISessions (serve calls st).1 !! agentId
  = Some (history ++ exchanges agentId calls (serve calls st).2)%list.
Proof.
  induction calls as [|c calls IH]; intros st agentId history Hp Hh.
  - simpl. by rewrite app_nil_r.
  - simpl.
    pose proof (generateResponse_history (network c) (callee c) (prompt c) st agentId Hp) as Hstep.
    pose proof (generateResponse_bindings (network c) (callee c) (prompt c) st) as (Hprov & _).
    destruct (generateResponse (network c) (callee c) (prompt c) st) as [r st1].
    simpl in Hstep, Hprov.
    assert (Hp1 : activeProvider st1 ≠ gemini) by (by rewrite Hprov).
    rewrite Hh in Hstep.
    destruct r as [answer|e]; [case_bool_decide|].
    all: specialize (IH st1 agentId _ Hp1 Hstep);
      destruct (serve calls st1) as [st2 rs]; simpl in *; rewrite IH, <- ?app_assoc; done.
Qed.

(** X18.  Under every provider but gemini, after [initializeChats] with a
    roster of distinct ids and then any sequence of [generateResponse]
    calls, for any agents, prompts and answers of the network, the history
    of an agent of the roster is its persona followed by the exchanges
    (prompt, then answer) of exactly those calls made for this agent that
    returned, in the order of the calls: calls that failed and calls for
    other agents leave no trace in it. *)
Theorem session_memory apiKey modelName roster rules st0 a calls :
  truthy (trim apiKey) = true ->
  detectProviderFromApiKey apiKey ≠ gemini ->
  NoDup (map agent_id roster) ->
  a ∈ roster ->
  let st := (initializeChats apiKey modelName roster rules st0).2 in
  openAISessions (serve calls st).1 !! agent_id a
  = Some (mkOA system (combinedSystemInstruction a rules)
            :: exchanges (agent_id a) calls (serve calls st).2).
Proof.
  intros Hkey Hp Hnd Ha st.
  assert (Hst : st = installed (trim apiKey) apiKey modelName roster rules)
    by (unfold st; by rewrite initializeChats_installed).
  apply (serve_history calls st (agent_id a) [mkOA system (combinedSystemInstruction a rules)]).
  - rewrite Hst. destruct (installed_bindings (trim apiKey) apiKey modelName roster rules)
      as (-> & _). by rewrite detect_trim.
  - rewrite Hst. unfold installed. rewrite detect_trim, decide_False by done. simpl.
    by rewrite (insertAll_lookup _ _ _ a Ha Hnd).
Qed.

Lemma session_memory_witness :
  truthy (trim "sk-test") = true
  /\ openAISessions
       (serve sampleCalls
          (initializeChats "sk-test" "gpt-4o-mini" [agentA; agentB] "Be brief"
             Service.initial).2).1 !! "A"
     = Some (mkOA system (combinedSystemInstruction agentA "Be brief")
               :: exchanges "A" sampleCalls
                    (serve sampleCalls
                       (initializeChats "sk-test" "gpt-4o-mini" [agentA; agentB] "Be brief"
                          Service.initial).2).2).
Proof.
  assert (Hnd : NoDup (map agent_id [agentA; agentB])).
  { apply (bool_decide_unpack _). exact I. }
  assert (Ha : agentA ∈ [agentA; agentB]) by (apply elem_of_cons; by left).
  split; [reflexivity|].
  refine (session_memory "sk-test" "gpt-4o-mini" [agentA; agentB] "Be brief" Service.initial
            agentA sampleCalls eq_refl _ Hnd Ha).
  discriminate.
Defined.

End ServiceProps.

(** * Further properties of the orchestrator *)

Module AppProps.
Import Js Service App Ui Spec Samples Derived ServiceFacts AppFacts ServiceProps.

Lemma firstModel_truthy p : truthy (firstModel p) = true.
Proof. by destruct p. Qed.

Lemma firstModel_default p :
  or_else (firstModel p) (getDefaultModelForProvider p) = firstModel p.
Proof. unfold or_else. by rewrite firstModel_truthy. Qed.

Lemma nextSpeaker_member roster speaker next :
  nextSpeaker roster speaker = Return next -> next ∈ map agent_id roster.
Proof.
  unfold nextSpeaker. destruct roster as [|a0 rest] eqn:E; [done|]. rewrite <- E.
  unfold at_index. destruct (_ <? 0); [done|].
  destruct (roster !! _) as [a|] eqn:Ha; [|done].
  intros [= <-]. apply list_elem_of_fmap. exists a. split; [done|].
  by eapply list_elem_of_lookup_2.
Qed.

(** The transcript only grows: [extends] closes a goal that says so. *)
Ltac extends :=
  simpl; rewrite <- ?app_assoc; first [reflexivity | by eexists].

Section Env.
Variable ENV_API_KEY : string.

(** ** The sessions of a running conversation *)

Lemma handleStart_started (w : World) :
  truthy (trim (topic (config (app w)))) = true ->
  truthy (getEffectiveApiKey ENV_API_KEY (config (app w))) = true ->
  handleStart ENV_API_KEY w =
  let key := getEffectiveApiKey ENV_API_KEY (config (app w)) in
  let p := detectProviderFromApiKey key in
  mkWorld
    (let s := setConfig (withKey key p (firstModel p)) (app w) in
     let s := setMessages (fun _ => []) s in
     let s := setTurnCount (fun _ => 0) s in
     let s := setStatus ACTIVE s in
     let s := setHasSummarized false s in
     let s := setIsSummarizing false s in
     let s := addMessage "SYSTEM"
                ("Discussion Started: " +:+ dquote +:+ topic (config (app w)) +:+ dquote) s in
     let s := setIsConfigOpen false s in
     match agents (config (app w)) with
     | firstAgent :: _ => setCurrentSpeakerId (Some (agent_id firstAgent)) s
     | [] => s
     end)
    (installed key key (firstModel p) (agents (config (app w)))
       (globalRules (config (app w)))).
Proof.
  intros Htopic Hkey. unfold handleStart. rewrite Htopic, Hkey. simpl.
  rewrite initializeChats_installed by (by rewrite effectiveKey_trimmed).
  by rewrite effectiveKey_trimmed.
Qed.

Lemma handleStart_wired w :
  truthy (trim (topic (config (app w)))) = true ->
  truthy (getEffectiveApiKey ENV_API_KEY (config (app w))) = true ->
  (forall id, currentSpeakerId (app w) = Some id ->
              id ∈ map agent_id (agents (config (app w)))) ->
  wired (agents (config (app w))) (handleStart ENV_API_KEY w).
Proof.
  intros Htopic Hkey Hsp. rewrite (handleStart_started w Htopic Hkey). simpl.
  set (key := getEffectiveApiKey ENV_API_KEY (config (app w))) in *.
  destruct (installed_bindings key key (firstModel (detectProviderFromApiKey key))
              (agents (config (app w))) (globalRules (config (app w)))) as (Hp & Hm & Hk).
  rewrite firstModel_default in Hm.
  destruct (agents (config (app w))) as [|a0 rest] eqn:Hroster; simpl.
  - split_and!; try done.
    intros _. split; [intros id Hid; by apply installed_hasSession|].
    unfold bound. simpl. by rewrite Hp, Hm, Hk.
  - split_and!; try done.
    + intros id [= <-]. apply elem_of_cons. by left.
    + intros _. split; [intros id Hid; by apply installed_hasSession|].
      unfold bound. simpl. by rewrite Hp, Hm, Hk.
Qed.

Lemma firstSpeakerIfNone_fields now s :
  config (firstSpeakerIfNone now s) = config s
  /\ status (firstSpeakerIfNone now s) = status s
  /\ turnCount (firstSpeakerIfNone now s) = turnCount s
  /\ userInput (firstSpeakerIfNone now s) = userInput s.
Proof. unfold firstSpeakerIfNone. by branches. Qed.

Lemma firstSpeakerIfNone_speaker now s id :
  currentSpeakerId s = currentSpeakerId now ->
  agents (config s) = agents (config now) ->
  (forall id, currentSpeakerId now = Some id -> id ∈ map agent_id (agents (config now))) ->
  currentSpeakerId (firstSpeakerIfNone now s) = Some id ->
  id ∈ map agent_id (agents (config now)).
Proof.
  intros Hs Ha Hin. unfold firstSpeakerIfNone.
  destruct (agents (config now)) as [|a0 rest] eqn:E.
  - rewrite Hs. apply Hin.
  - destruct (negb _); simpl.
    + intros [= <-]. apply elem_of_cons. by left.
    + rewrite Hs. apply Hin.
Qed.

Lemma handleUserSubmit_wired roster w :
  wired roster w -> wired roster (handleUserSubmit ENV_API_KEY w).
Proof.
  intros (Hroster & Hpaused & Hsp & Hready). unfold handleUserSubmit.
  destruct (negb (truthy (trim (userInput (app w))))); [done|].
  destruct (bool_decide (status (app w) = IDLE) || bool_decide (status (app w) = ERROR)) eqn:Hidle.
  - assert (Hst : status (app w) = IDLE \/ status (app w) = ERROR).
    { apply orb_true_iff in Hidle as [H|H]; apply bool_decide_eq_true in H; auto. }
    destruct (truthy (getEffectiveApiKey ENV_API_KEY (config (app w)))) eqn:Hkey; simpl.
    + rewrite initializeChats_installed by (by rewrite effectiveKey_trimmed).
      rewrite effectiveKey_trimmed.
      set (key := getEffectiveApiKey ENV_API_KEY (config (app w))) in *.
      set (m := or_else (model (config (app w))) (firstModel (detectProviderFromApiKey key))).
      destruct (installed_bindings key key m (agents (config (app w)))
                  (globalRules (config (app w)))) as (Hp & Hm & Hk).
      assert (Hmt : truthy m = true).
      { unfold m. rewrite or_else_truthy, firstModel_truthy. apply orb_true_r. }
      replace (or_else m _) with m in Hm by (unfold or_else at 1; by rewrite Hmt).
      destruct (firstSpeakerIfNone_fields (app w)
                  (setStatus ACTIVE
                     (setConfig (withKey key (detectProviderFromApiKey key) m)
                        (setUserInput EmptyString
                           (addMessage "USER" (userInput (app w)) (app w))))))
        as (Hc & Hs & _ & _).
      unfold wired, bound. simpl. rewrite Hc, Hs. simpl.
      split_and!; try done.
      * intros id. rewrite <- Hroster. apply firstSpeakerIfNone_speaker; try done.
        by rewrite Hroster.
      * intros _. rewrite <- Hroster. split; [intros id Hid; by apply installed_hasSession|].
        by rewrite Hp, Hm, Hk.
    + unfold wired. simpl. split_and!; try done; intros [H|H]; destruct Hst; congruence.
  - apply orb_false_iff in Hidle as [Hi He].
    apply bool_decide_eq_false in Hi, He.
    destruct (bool_decide (status (app w) = PAUSED) || bool_decide (status (app w) = COMPLETED))
      eqn:Hdone.
    + assert (Hst : status (app w) = COMPLETED).
      { apply orb_true_iff in Hdone as [H|H]; apply bool_decide_eq_true in H; done. }
      destruct (firstSpeakerIfNone_fields (app w)
                  (setStatus ACTIVE
                     (setUserInput EmptyString
                        (addMessage "USER" (userInput (app w)) (app w)))))
        as (Hc & Hs & _ & _).
      unfold wired, bound. simpl. rewrite Hc, Hs. simpl.
      split_and!; try done.
      * intros id. rewrite <- Hroster. apply firstSpeakerIfNone_speaker; try done.
        by rewrite Hroster.
      * intros _. apply Hready. by right.
    + unfold wired. simpl. split_and!; try done.
Qed.

Lemma processTurn_wired roster ext w :
  wired roster w -> wired roster (processTurn ext w).1.
Proof.
  intros Hw. pose proof Hw as (Hroster & Hpaused & Hsp & Hready). unfold processTurn.
  destruct (currentSpeakerId (app w)) as [speaker|] eqn:Hspeaker; [|exact Hw].
  destruct (negb (bool_decide (status (app w) = ACTIVE)) || negb (truthy speaker)) eqn:Hrun;
    [exact Hw|].
  apply orb_false_iff in Hrun as [Hact _]. apply negb_false_iff, bool_decide_eq_true in Hact.
  destruct (Hready (or_introl Hact)) as [Hsessions Hbound].
  destruct (_ <=? _).
  { unfold wired; simpl. split_and!; try done. intros id. rewrite Hspeaker. apply Hsp. }
  destruct (determinePrompt _ _ _) as [[promptText|]|]; try exact Hw.
  pose proof (generateResponse_bindings ext speaker promptText (service w)) as Hgen.
  destruct (generateResponse ext speaker promptText (service w)) as [[responseText|e] svc].
  - simpl in Hgen. destruct Hgen as (Hp & Hm & Hk & _ & Hs).
    destruct (nextSpeaker (agents (config (app w))) speaker) as [next|e] eqn:Hnext.
    + unfold wired, bound; simpl. split_and!; try done.
      * intros id [= <-]. rewrite <- Hroster. by eapply nextSpeaker_member.
      * intros _. split; [intros id Hid; by apply Hs, Hsessions|].
        unfold bound in Hbound. by rewrite Hp, Hm, Hk.
    + unfold wired; simpl. split_and!; try done.
      * intros id. rewrite Hspeaker. apply Hsp.
      * by intros [|].
  - unfold wired; simpl. split_and!; try done.
    + intros id. rewrite Hspeaker. apply Hsp.
    + by intros [|].
Qed.

Lemma summaryEffect_wired roster ext w :
  wired roster w -> wired roster (summaryEffect ENV_API_KEY ext w).1.
Proof.
  intros Hw. unfold summaryEffect.
  destruct (negb _); [done|]. destruct (hasSummarizedRef _); [done|].
  destruct (messages (app w)) eqn:Hm; [done|].
  pose proof (generateMeetingSummary_state ext (messages (app w)) (topic (config (app w)))
                (globalRules (config (app w))) (getEffectiveApiKey ENV_API_KEY (config (app w)))
                (Some (provider (config (app w)))) (Some (model (config (app w))))
                (service w)) as Hsame.
  rewrite Hm in Hsame.
  destruct (generateMeetingSummary _ _ _ _ _ _ _ _) as [[t|e] svc]; simpl in *; subst svc;
    exact Hw.
Qed.

Lemma step_wired roster ev w :
  offered ENV_API_KEY w ev = true ->
  wired roster w -> wired roster (step ENV_API_KEY ev w).1.
Proof.
  intros Hoff Hw. destruct ev; simpl.
  - destruct Hw as (Hroster & _ & Hsp & _). rewrite <- Hroster.
    simpl in Hoff. unfold footerButton in Hoff.
    destruct (_ || _ || _); [|done].
    apply negb_true_iff, orb_false_iff in Hoff as [Ht Hk].
    apply negb_false_iff in Ht, Hk.
    apply handleStart_wired; try done. by rewrite Hroster.
  - destruct Hw as (Hroster & Hpaused & Hsp & Hready).
    simpl in Hoff. unfold footerButton in Hoff.
    destruct (status (app w)) eqn:Hst; try done.
    unfold wired; simpl. split_and!; try done.
    intros _. apply Hready. by left.
  - destruct Hw as (Hroster & Hpaused & Hsp & Hready).
    unfold wired; simpl. split_and!; try done. by intros [|].
  - exact Hw.
  - by apply handleUserSubmit_wired.
  - pose proof (processTurn_wired roster ext w Hw).
    by destruct (processTurn ext w).
  - pose proof (summaryEffect_wired roster ext w Hw).
    by destruct (summaryEffect ENV_API_KEY ext w).
Qed.

Lemma run_wired roster evs : forall w,
  offeredRun ENV_API_KEY evs w = true ->
  wired roster w -> wired roster (run ENV_API_KEY evs w).1.
Proof.
  induction evs as [|ev evs IH]; intros w Hoff Hw; [done|].
  simpl in Hoff. apply andb_true_iff in Hoff as [Hev Hrest].
  rewrite run_cons. simpl. apply IH; [done|]. by apply step_wired.
Qed.

Lemma initialWorld_wired cfg : wired (agents cfg) (initialWorld cfg).
Proof. unfold wired. simpl. split_and!; try done. by intros [|]. Qed.

Lemma processTurn_generated ext w agentId promptText response :
  (processTurn ext w).2 = Generated agentId promptText response ->
  status (app w) = ACTIVE /\ currentSpeakerId (app w) = Some agentId.
Proof.
  unfold processTurn.
  destruct (currentSpeakerId (app w)) as [speaker|]; [|done].
  destruct (negb (bool_decide (status (app w) = ACTIVE)) || negb (truthy speaker)) eqn:Hrun;
    [done|].
  apply orb_false_iff in Hrun as [Hact _]. apply negb_false_iff, bool_decide_eq_true in Hact.
  destruct (_ <=? _); [done|].
  destruct (determinePrompt _ _ _) as [[p|]|]; try done.
  destruct (generateResponse _ _ _ _) as [[t|e] svc]; simpl.
  - destruct (nextSpeaker _ _); simpl; by intros [= -> _ _].
  - by intros [= -> _ _].
Qed.

(** X7.  From the component as it is mounted, along every run of events that
    the page offers (Start, Stop and Reset through the footer as it is
    rendered, input, submissions and the two effects at any time), a turn
    that calls the generator calls it for an agent of the roster that has a
    session in the service: the missing-session failure of
    [generateResponse] is never met. *)
Theorem turns_have_sessions cfg evs ext agentId promptText response :
  offeredRun ENV_API_KEY evs (initialWorld cfg) = true ->
  let w := (run ENV_API_KEY evs (initialWorld cfg)).1 in
  (processTurn ext w).2 = Generated agentId promptText response ->
  agentId ∈ map agent_id (agents cfg) /\ hasSession (service w) agentId.
Proof.
  intros Hoff w Hgen.
  destruct (run_wired (agents cfg) evs (initialWorld cfg) Hoff (initialWorld_wired cfg))
    as (_ & _ & Hsp & Hready).
  destruct (processTurn_generated ext w _ _ _ Hgen) as [Hact Hspeaker].
  pose proof (Hsp agentId Hspeaker) as Hin. split; [done|].
  destruct (Hready (or_introl Hact)) as [Hsessions _]. by apply Hsessions.
Qed.

(** X8.  Along every such run the roster stays the one the component was
    mounted with, and whenever the status is ACTIVE or COMPLETED the
    configuration shown agrees with the service: same key, same provider,
    same model; the provider is the one detected from the key, and the key
    is not empty. *)
Theorem conversation_bindings cfg evs :
  offeredRun ENV_API_KEY evs (initialWorld cfg) = true ->
  let w := (run ENV_API_KEY evs (initialWorld cfg)).1 in
  agents (config (app w)) = agents cfg
  /\ (status (app w) = ACTIVE \/ status (app w) = COMPLETED ->
      apiKey (config (app w)) = activeApiKey (service w)
      /\ provider (config (app w)) = activeProvider (service w)
      /\ model (config (app w)) = activeModel (service w)
      /\ provider (config (app w)) = detectProviderFromApiKey (apiKey (config (app w)))
      /\ truthy (apiKey (config (app w))) = true).
Proof.
  intros Hoff w.
  destruct (run_wired (agents cfg) evs (initialWorld cfg) Hoff (initialWorld_wired cfg))
    as (Hroster & _ & _ & Hready).
  split; [done|]. intros Hst. by destruct (Hready Hst) as [_ Hbound].
Qed.

(** ** Starting, submitting, stopping *)

(** X9.  A start that passes its checks (a topic that is not blank, a key, a
    roster that is not empty) depends on the key, the roster, the topic, the
    turn limit, the global rules and the pending input only: the provider
    and the model selected before, the previous transcript, turn count,
    status, speaker and flags, and the sessions of the service have no
    influence on the world it leaves. *)
Theorem handleStart_fresh w1 w2 :
  truthy (trim (topic (config (app w1)))) = true ->
  truthy (getEffectiveApiKey ENV_API_KEY (config (app w1))) = true ->
  agents (config (app w1)) ≠ [] ->
  sameSetup w1 w2 ->
  handleStart ENV_API_KEY w1 = handleStart ENV_API_KEY w2.
Proof.
  intros Htopic Hkey Hne (Hk & Ha & Ht & Hm & Hr & Hi).
  assert (Hkeys : getEffectiveApiKey ENV_API_KEY (config (app w2))
                  = getEffectiveApiKey ENV_API_KEY (config (app w1)))
    by (unfold getEffectiveApiKey; by rewrite Hk).
  rewrite (handleStart_started w1 Htopic Hkey).
  rewrite (handleStart_started w2) by (by rewrite <- ?Ht, ?Hkeys).
  cbv zeta. rewrite Hkeys, <- Ha, <- Hr, <- Ht.
  destruct w1 as [[c1 ? ? ? ? ? ? ? ?] s1], w2 as [[c2 ? ? ? ? ? ? ? ?] s2].
  destruct c1, c2. simpl in *. subst.
  match goal with |- context [match ?roster with [] => _ | _ :: _ => _ end] =>
    by destruct roster
  end.
Qed.

Lemma handleUserSubmit_messages w :
  truthy (trim (userInput (app w))) = true ->
  exists notices,
    messages (app (handleUserSubmit ENV_API_KEY w)) =
      (messages (app w) ++ mkMessage "USER" (userInput (app w)) :: notices)%list
    /\ Forall (fun m => senderId m = "SYSTEM") notices.
Proof.
  intros Hv. unfold handleUserSubmit. rewrite Hv. simpl.
  destruct (bool_decide (status (app w) = IDLE) || bool_decide (status (app w) = ERROR)).
  - destruct (truthy (getEffectiveApiKey _ _)).
    + simpl. destruct (initializeChats _ _ _ _ _) as [[[]|e] svc]; simpl.
      * exists []. rewrite firstSpeakerIfNone_messages. simpl. auto.
      * eexists [_]. rewrite <- app_assoc. simpl. split; [done|]. by repeat constructor.
    + simpl. eexists [_]. rewrite <- app_assoc. simpl. split; [done|]. by repeat constructor.
  - destruct (bool_decide _ || bool_decide _); simpl.
    + exists []. rewrite firstSpeakerIfNone_messages. simpl. auto.
    + exists []. auto.
Qed.

(** X10.  A submission that is not blank clears the input box and keeps the
    turn count and a speaker that is set.  When nothing is running (IDLE or
    ERROR) and no key is to be had, it leaves the status, the service, the
    configuration and the speaker as they were.  In every other case the
    status after it is ACTIVE, and a conversation that was not ACTIVE and
    had no speaker goes on with the first agent of the roster. *)
Theorem handleUserSubmit_resumes w :
  truthy (trim (userInput (app w))) = true ->
  let w' := handleUserSubmit ENV_API_KEY w in
  userInput (app w') = EmptyString
  /\ turnCount (app w') = turnCount (app w)
  /\ (speakerSet (currentSpeakerId (app w)) = true ->
      currentSpeakerId (app w') = currentSpeakerId (app w))
  /\ (blocked ENV_API_KEY w ->
      status (app w') = status (app w) /\ service w' = service w
      /\ config (app w') = config (app w)
      /\ currentSpeakerId (app w') = currentSpeakerId (app w))
  /\ (~ blocked ENV_API_KEY w ->
      status (app w') = ACTIVE
      /\ forall a rest, agents (config (app w)) = a :: rest ->
           speakerSet (currentSpeakerId (app w)) = false ->
           status (app w) ≠ ACTIVE ->
           currentSpeakerId (app w') = Some (agent_id a)).
Proof.
  intros Hv. unfold handleUserSubmit, blocked. rewrite Hv. simpl.
  destruct (bool_decide (status (app w) = IDLE) || bool_decide (status (app w) = ERROR)) eqn:Hidle.
  - assert (Hst : status (app w) = IDLE \/ status (app w) = ERROR).
    { apply orb_true_iff in Hidle as [H|H]; apply bool_decide_eq_true in H; auto. }
    destruct (truthy (getEffectiveApiKey ENV_API_KEY (config (app w)))) eqn:Hkey; simpl.
    + rewrite initializeChats_installed by (by rewrite effectiveKey_trimmed).
      unfold firstSpeakerIfNone.
      destruct (agents (config (app w))) as [|a rest] eqn:Hroster; simpl.
      * split_and!; try done. by intros [_ ?].
      * destruct (speakerSet (currentSpeakerId (app w))) eqn:Hset; simpl.
        -- split_and!; try done. by intros [_ ?].
        -- split_and!; try done. { by intros [_ ?]. }
           intros _. split; [done|]. by intros ? ? [= <- _].
    + split_and!; try done. intros H. destruct H. by split.
  - apply orb_false_iff in Hidle as [Hi He].
    apply bool_decide_eq_false in Hi, He.
    destruct (bool_decide (status (app w) = PAUSED) || bool_decide (status (app w) = COMPLETED))
      eqn:Hdone.
    + unfold firstSpeakerIfNone.
      destruct (agents (config (app w))) as [|a rest] eqn:Hroster; simpl.
      * split_and!; try done. by intros [[|] _].
      * destruct (speakerSet (currentSpeakerId (app w))) eqn:Hset; simpl.
        -- split_and!; try done. by intros [[|] _].
        -- split_and!; try done. { by intros [[|] _]. }
           intros _. split; [done|]. by intros ? ? [= <- _].
    + apply orb_false_iff in Hdone as [Hp Hc]. apply bool_decide_eq_false in Hp, Hc.
      simpl. split_and!; try done.
      intros _. split; [by destruct (status (app w))|].
      intros a rest _ _ Hna. by destruct (status (app w)).
Qed.

(** X11.  After a submission that is not blank, the next turn that is due
    calls the generator for the current speaker with the text submitted,
    as typed, behind the label of the user, whatever the transcript held
    before and whether or not a notice followed the message. *)
Theorem submitted_text_prompts value w speaker ext :
  truthy (trim value) = true ->
  turnDue (userSubmit ENV_API_KEY value w) speaker ->
  (processTurn ext (userSubmit ENV_API_KEY value w)).2
  = Generated speaker ("ユーザーの発言: " +:+ value)
      (generateResponse ext speaker ("ユーザーの発言: " +:+ value)
         (service (userSubmit ENV_API_KEY value w))).1.
Proof.
  intros Hv Hdue.
  destruct (handleUserSubmit_messages (mkWorld (setUserInput value (app w)) (service w)) Hv)
    as (notices & Hmsgs & Hsys).
  apply processTurn_generates; [done|].
  rewrite (determinePrompt_content _ _ _ (mkMessage "USER" value)).
  - unfold speakerLabel. simpl. done.
  - exists (messages (app w)), notices. split_and!; done.
Qed.


Lemma handleUserSubmit_prefix w :
  messages (app w) `prefix_of` messages (app (handleUserSubmit ENV_API_KEY w)).
Proof.
  unfold handleUserSubmit. branches; rewrite ?firstSpeakerIfNone_messages; extends.
Qed.

Lemma processTurn_prefix ext w :
  messages (app w) `prefix_of` messages (app (processTurn ext w).1).
Proof. unfold processTurn. branches; extends. Qed.

Lemma summaryEffect_prefix ext w :
  messages (app w) `prefix_of` messages (app (summaryEffect ENV_API_KEY ext w).1).
Proof.
  unfold summaryEffect. branches;
    try match goal with H : messages _ = _ |- _ => rewrite <- H end; extends.
Qed.

Lemma step_prefix ev w :
  restarts ev = false ->
  messages (app w) `prefix_of` messages (app (step ENV_API_KEY ev w).1).
Proof.
  intros Hev. destruct ev; try done; simpl.
  - extends.
  - apply handleUserSubmit_prefix.
  - pose proof (processTurn_prefix ext w). by destruct (processTurn ext w).
  - pose proof (summaryEffect_prefix ext w). by destruct (summaryEffect ENV_API_KEY ext w).
Qed.

(** X13.  Along every run of events without a restart (no Start, no Reset)
    the transcript only grows at its end: the transcript before the run is a
    prefix of the transcript after it. *)
Theorem transcript_append_only evs w :
  Forall (fun ev => restarts ev = false) evs ->
  messages (app w) `prefix_of` messages (app (run ENV_API_KEY evs w).1).
Proof.
  intros Hevs. revert w. induction Hevs as [|ev evs Hev _ IH]; intros w; [done|].
  rewrite run_cons. simpl. etrans; [by apply step_prefix|apply IH].
Qed.

(** X14.  While the status is neither ACTIVE nor COMPLETED (IDLE, ERROR,
    PAUSED), or is COMPLETED with the summary already made, the two effects
    do nothing however often they fire and whatever the network would
    answer: no call, no change of the component or of the service. *)
Theorem effects_quiescent evs w :
  status (app w) ≠ ACTIVE ->
  status (app w) ≠ COMPLETED \/ hasSummarizedRef (app w) = true ->
  Forall (fun ev => isEffect ev = true) evs ->
  run ENV_API_KEY evs w = (w, []).
Proof.
  intros Hact Hdone Hevs. induction Hevs as [|ev evs Hev _ IH]; [done|].
  assert (Hstep : step ENV_API_KEY ev w = (w, [])).
  { destruct ev; try done; simpl.
    - unfold processTurn. destruct (currentSpeakerId (app w)); [|done].
      by rewrite bool_decide_false.
    - unfold summaryEffect. destruct Hdone as [Hc|Hl].
      + by rewrite bool_decide_false.
      + rewrite Hl. by destruct (negb _). }
  simpl. simpl in Hstep. rewrite Hstep. by rewrite IH.
Qed.

(** ** A conversation after another, a submission after an error *)

Lemma step_keepsLatch ev w :
  keepsLatch ev = true ->
  hasSummarizedRef (app (step ENV_API_KEY ev w).1) = hasSummarizedRef (app w)
  /\ messages (app w) `prefix_of` messages (app (step ENV_API_KEY ev w).1).
Proof.
  intros Hev. split; [|apply step_prefix; by destruct ev].
  destruct ev; try done; simpl.
  - apply handleUserSubmit_latch.
  - pose proof (processTurn_latch ext w). by destruct (processTurn ext w).
Qed.

Lemma run_keepsLatch evs : forall w,
  Forall (fun ev => keepsLatch ev = true) evs ->
  hasSummarizedRef (app (run ENV_API_KEY evs w).1) = hasSummarizedRef (app w)
  /\ messages (app w) `prefix_of` messages (app (run ENV_API_KEY evs w).1).
Proof.
  induction evs as [|ev evs IH]; intros w Hevs; [done|].
  apply Forall_cons in Hevs as [Hev Hevs].
  rewrite run_cons. simpl.
  destruct (step_keepsLatch ev w Hev) as [Hl Hm].
  destruct (IH (step ENV_API_KEY ev w).1 Hevs) as [Hl' Hm'].
  split; [by rewrite Hl', Hl|by etrans].
Qed.

(** X19.  Every conversation gets its summary, also after an earlier one
    had its own: after a start that passes its checks, and any run of
    turns, submissions, input and stops, once the status is COMPLETED the
    summary effect invokes the summary routine, whatever the state of the
    component before the start. *)
Theorem restart_summarises w evs ext :
  truthy (trim (topic (config (app w)))) = true ->
  truthy (getEffectiveApiKey ENV_API_KEY (config (app w))) = true ->
  Forall (fun ev => keepsLatch ev = true) evs ->
  let w' := (run ENV_API_KEY evs (handleStart ENV_API_KEY w)).1 in
  status (app w') = COMPLETED ->
  exists r, (summaryEffect ENV_API_KEY ext w').2 = Summarized r.
Proof.
  intros Htopic Hkey Hevs w' Hdone.
  destruct (run_keepsLatch evs (handleStart ENV_API_KEY w) Hevs) as [Hl Hm].
  fold w' in Hl, Hm.
  rewrite (handleStart_started w Htopic Hkey) in Hl, Hm.
  apply (summaryEffect_fires ENV_API_KEY ext w' Hdone).
  - rewrite Hl. simpl. by destruct (agents (config (app w))).
  - intros Hnil. rewrite Hnil in Hm. destruct Hm as [k Hk]. simpl in Hk.
    destruct (agents (config (app w))); simpl in Hk; discriminate.
Qed.

(** X20.  A submission that is not blank, made while the status is IDLE or
    ERROR and a key is to be had, starts the sessions afresh: the service is
    left as [initializeChats] leaves it on a page just loaded, so what the
    agents remembered of the conversation is gone, while the transcript
    (with the new USER message at its end) and the turn count are kept.
    The model used is the one selected in the configuration, the first of
    the catalogue when none is selected. *)
Theorem submit_reinitialises w :
  truthy (trim (userInput (app w))) = true ->
  status (app w) = IDLE \/ status (app w) = ERROR ->
  truthy (getEffectiveApiKey ENV_API_KEY (config (app w))) = true ->
  let cfg := config (app w) in
  let key := getEffectiveApiKey ENV_API_KEY cfg in
  let chosen := or_else (model cfg) (firstModel (detectProviderFromApiKey key)) in
  let w' := handleUserSubmit ENV_API_KEY w in
  status (app w') = ACTIVE
  /\ messages (app w') = (messages (app w) ++ [mkMessage "USER" (userInput (app w))])%list
  /\ turnCount (app w') = turnCount (app w)
  /\ model (config (app w')) = chosen
  /\ service w'
     = (initializeChats key chosen (agents cfg) (globalRules cfg) Service.initial).2.
Proof.
  intros Hv Hst Hkey. cbv zeta. unfold handleUserSubmit. rewrite Hv. simpl.
  replace (bool_decide (status (app w) = IDLE) || bool_decide (status (app w) = ERROR))
    with true
    by (destruct Hst as [-> | ->]; done).
  rewrite Hkey. simpl.
  rewrite !initializeChats_installed by (by rewrite effectiveKey_trimmed).
  destruct (firstSpeakerIfNone_fields (app w)
              (setStatus ACTIVE
                 (setConfig
                    (withKey (getEffectiveApiKey ENV_API_KEY (config (app w)))
                       (detectProviderFromApiKey (getEffectiveApiKey ENV_API_KEY (config (app w))))
                       (or_else (model (config (app w)))
                          (firstModel
                             (detectProviderFromApiKey
                                (getEffectiveApiKey ENV_API_KEY (config (app w)))))))
                    (setUserInput EmptyString
                       (addMessage "USER" (userInput (app w)) (app w))))))
    as (Hc & Hs & Ht & _).
  simpl. rewrite Hc, Hs, Ht, firstSpeakerIfNone_messages. by split_and!.
Qed.

End Env.

Lemma turns_have_sessions_witness :
  offeredRun EmptyString [Start; Turn (answering "Tea.")] (initialWorld sampleConfig) = true
  /\ hasSession
       (service (run EmptyString [Start; Turn (answering "Tea.")] (initialWorld sampleConfig)).1)
       "B".
Proof.
  split; [reflexivity|].
  refine (proj2 (turns_have_sessions EmptyString sampleConfig [Start; Turn (answering "Tea.")]
                   (answering "Coffee.") "B" "Dr. Logicの発言: Tea." (Return "Coffee.")
                   eq_refl eq_refl)).
Defined.

Lemma conversation_bindings_witness :
  offeredRun EmptyString [Start; Turn (answering "Tea.")] (initialWorld sampleConfig) = true
  /\ model (config (app (run EmptyString [Start; Turn (answering "Tea.")]
                          (initialWorld sampleConfig)).1))
     = activeModel (service (run EmptyString [Start; Turn (answering "Tea.")]
                               (initialWorld sampleConfig)).1).
Proof.
  split; [reflexivity|].
  refine (proj1 (proj2 (proj2 (proj2 (conversation_bindings EmptyString sampleConfig
                   [Start; Turn (answering "Tea.")] eq_refl) (or_introl eq_refl))))).
Defined.

Lemma handleStart_fresh_witness :
  sameSetup (initialWorld sampleConfig) completedWorld
  /\ handleStart EmptyString (initialWorld sampleConfig) = handleStart EmptyString completedWorld.
Proof.
  assert (Hsame : sameSetup (initialWorld sampleConfig) completedWorld).
  { repeat split; reflexivity. }
  split; [exact Hsame|].
  apply handleStart_fresh; [reflexivity|reflexivity|discriminate|exact Hsame].
Defined.

Lemma handleUserSubmit_resumes_witness :
  truthy (trim "Hello") = true
  /\ userInput (app (userSubmit EmptyString "Hello" (initialWorld sampleConfig))) = EmptyString.
Proof.
  split; [reflexivity|].
  refine (proj1 (handleUserSubmit_resumes EmptyString
                   (mkWorld (setUserInput "Hello" (app (initialWorld sampleConfig)))
                      (service (initialWorld sampleConfig))) eq_refl)).
Defined.

Lemma submitted_text_prompts_witness :
  turnDue (userSubmit EmptyString "Hello" (initialWorld sampleConfig)) "A"
  /\ (processTurn (answering "Tea.")
        (userSubmit EmptyString "Hello" (initialWorld sampleConfig))).2
     = Generated "A" "ユーザーの発言: Hello"
         (generateResponse (answering "Tea.") "A" "ユーザーの発言: Hello"
            (service (userSubmit EmptyString "Hello" (initialWorld sampleConfig)))).1.
Proof.
  assert (Hdue : turnDue (userSubmit EmptyString "Hello" (initialWorld sampleConfig)) "A").
  { repeat split; reflexivity. }
  split; [exact Hdue|].
  exact (submitted_text_prompts EmptyString "Hello" (initialWorld sampleConfig) "A"
           (answering "Tea.") eq_refl Hdue).
Defined.

Lemma transcript_append_only_witness :
  Forall (fun ev => restarts ev = false) [Turn (answering "Tea."); Stop]
  /\ messages (app startedWorld)
     `prefix_of` messages (app (run EmptyString [Turn (answering "Tea."); Stop] startedWorld).1).
Proof.
  assert (Hevs : Forall (fun ev => restarts ev = false) [Turn (answering "Tea."); Stop]).
  { repeat constructor. }
  split; [exact Hevs|].
  exact (transcript_append_only EmptyString [Turn (answering "Tea."); Stop] startedWorld Hevs).
Defined.

Lemma effects_quiescent_witness :
  status (app (handleReset completedWorld)) ≠ ACTIVE
  /\ run EmptyString [Turn (answering "Tea."); SummaryFx unreachable] (handleReset completedWorld)
     = (handleReset completedWorld, []).
Proof.
  split; [discriminate|].
  apply effects_quiescent; [discriminate|left; discriminate|].
  repeat constructor.
Defined.

Lemma restart_summarises_witness :
  status (app (run EmptyString [Turn (answering "Tea."); Stop]
                 (handleStart EmptyString completedWorld)).1) = COMPLETED
  /\ exists r,
       (summaryEffect EmptyString unreachable
          (run EmptyString [Turn (answering "Tea."); Stop]
             (handleStart EmptyString completedWorld)).1).2 = Summarized r.
Proof.
  split; [reflexivity|].
  apply restart_summarises; [reflexivity|reflexivity| |reflexivity].
  repeat constructor.
Defined.

Lemma submit_reinitialises_witness :
  status (app (processTurn unreachable startedWorld).1) = ERROR
  /\ status (app (userSubmit EmptyString "Hello" (processTurn unreachable startedWorld).1))
     = ACTIVE.
Proof.
  split; [reflexivity|].
  refine (proj1 (submit_reinitialises EmptyString
                   (mkWorld (setUserInput "Hello" (app (processTurn unreachable startedWorld).1))
                      (service (processTurn unreachable startedWorld).1))
                   eq_refl (or_intror eq_refl) eq_refl)).
Defined.

End AppProps.

(** * Properties of the identifiers, the exported log and the key field *)

Module UiProps.
Import Js Service App Ui Spec Samples Derived.

(** ** Message identifiers *)

Lemma below_256 (P : Z -> bool) :
  forallb (fun n => P (Z.of_nat n)) (seq 0 256) = true ->
  forall b, 0 <= b < 256 -> P b = true.
Proof.
  intros Hall b Hb. rewrite forallb_forall in Hall.
  rewrite <- (Z2Nat.id b) by lia. apply Hall. apply in_seq. lia.
Qed.

Lemma byteHex_twoHex b : 0 <= b < 256 -> twoHex (byteHex b) = true.
Proof. apply (below_256 (fun b => twoHex (byteHex b))). reflexivity. Qed.

Lemma byteHex_version b :
  0 <= b < 256 -> versionHex (byteHex (Z.lor (Z.land b 15) 64)) = true.
Proof. apply (below_256 (fun b => versionHex (byteHex (Z.lor (Z.land b 15) 64)))). reflexivity. Qed.

Lemma byteHex_variant b :
  0 <= b < 256 -> variantHex (byteHex (Z.lor (Z.land b 63) 128)) = true.
Proof. apply (below_256 (fun b => variantHex (byteHex (Z.lor (Z.land b 63) 128)))). reflexivity. Qed.

Lemma twoHex_chars s :
  twoHex s = true ->
  exists a b, s = String a (String b EmptyString) /\ isHex a = true /\ isHex b = true.
Proof.
  destruct s as [|a [|b [|]]]; try done. simpl.
  intros [? ?]%andb_true_iff. by exists a, b.
Qed.

Lemma versionHex_chars s :
  versionHex s = true -> exists b, s = String "4" (String b EmptyString) /\ isHex b = true.
Proof.
  destruct s as [|a [|b [|]]]; try done. simpl.
  intros [->%Ascii.eqb_eq ?]%andb_true_iff. by exists b.
Qed.

Lemma variantHex_chars s :
  variantHex s = true ->
  exists a b, s = String a (String b EmptyString)
    /\ (Ascii.eqb a "8" || Ascii.eqb a "9" || Ascii.eqb a "a" || Ascii.eqb a "b") = true
    /\ isHex a = true /\ isHex b = true.
Proof.
  destruct s as [|a [|b [|]]]; try done. simpl.
  intros [Ha ?]%andb_true_iff. exists a, b. split_and!; try done.
  repeat (apply orb_true_iff in Ha as [Ha|Ha]); apply Ascii.eqb_eq in Ha; by subst.
Qed.

(** X15.  Where the page has [getRandomValues] but no [randomUUID], the
    identifier that [safeRandomId] builds from the sixteen bytes written is
    a version 4 identifier in its usual form, whatever the bytes: 36
    characters, hyphens at positions 8, 13, 18 and 23, the digit 4 at
    position 14, one of 8, 9, a, b at position 19, and lower-case
    hexadecimal digits everywhere else. *)
Theorem safeRandomId_version4 values :
  length values = 16%nat ->
  Forall (fun b => 0 <= b < 256) values ->
  let id := safeRandomId (WithRandomValues values) in
  String.length id = 36%nat
  /\ String.get 14 id = Some "4"%char
  /\ uuidShape id = true.
Proof.
  intros Hlen Hbytes.
  do 16 (destruct values as [|? values]; [discriminate|]).
  destruct values; [|discriminate]. clear Hlen.
  repeat match goal with
         | H : Forall _ (_ :: _) |- _ => apply Forall_cons in H as [? H]
         end.
  unfold safeRandomId, setVersionBits, formatUuid. simpl.
  repeat match goal with
         | |- context [padStart 2 "0" (toString16 ?b)] =>
             change (padStart 2 "0" (toString16 b)) with (byteHex b)
         end.
  repeat match goal with
         | H : 0 <= ?b < 256 |- _ =>
             first
               [ match goal with
                 | |- context [byteHex (Z.lor (Z.land b 15) 64)] =>
                     destruct (versionHex_chars _ (byteHex_version b H)) as (? & -> & ?)
                 end
               | match goal with
                 | |- context [byteHex (Z.lor (Z.land b 63) 128)] =>
                     destruct (variantHex_chars _ (byteHex_variant b H)) as (? & ? & -> & ? & ? & ?)
                 end
               | destruct (twoHex_chars _ (byteHex_twoHex b H)) as (? & ? & -> & ? & ?) ];
             clear H
         end.
  split_and!; [reflexivity|reflexivity|].
  unfold uuidShape.
  cbv -[isHex Ascii.eqb]. cbv [orb] in *.
  rewrite ?Ascii.eqb_refl.
  repeat match goal with H : _ = true |- _ => rewrite H; clear H end.
  reflexivity.
Qed.

Lemma safeRandomId_version4_witness :
  Forall (fun b => 0 <= b < 256) sampleBytes
  /\ String.get 14 (safeRandomId (WithRandomValues sampleBytes)) = Some "4"%char
  /\ uuidShape (safeRandomId (WithRandomValues sampleBytes)) = true.
Proof.
  assert (Hbytes : Forall (fun b => 0 <= b < 256) sampleBytes).
  { repeat constructor; discriminate. }
  split; [exact Hbytes|].
  exact (proj2 (safeRandomId_version4 sampleBytes eq_refl Hbytes)).
Defined.

(** ** The text of a message in the exported page *)

Lemma append_cons a s t : String a s +:+ t = String a (s +:+ t).
Proof. reflexivity. Qed.

Lemma append_nil t : EmptyString +:+ t = t.
Proof. reflexivity. Qed.

Lemma append_assoc s t u : (s +:+ t) +:+ u = s +:+ (t +:+ u).
Proof. induction s as [|x s IH]; [done|]. by rewrite !append_cons, IH. Qed.

Lemma replaceChar_app c r s t :
  replaceChar c r (s +:+ t) = replaceChar c r s +:+ replaceChar c r t.
Proof.
  induction s as [|x s IH]; [done|].
  rewrite append_cons. simpl. rewrite IH.
  destruct (Ascii.eqb x c); [|done]. by rewrite append_assoc.
Qed.

Lemma safeText_each text : safeText text = escapeEach text.
Proof.
  unfold safeText. induction text as [|c text IH]; [done|].
  simpl. unfold escapeChar.
  destruct (Ascii.eqb c "&") eqn:Hamp.
  { rewrite !replaceChar_app, IH. done. }
  simpl. destruct (Ascii.eqb c "<") eqn:Hlt.
  { rewrite !replaceChar_app, IH. done. }
  simpl. destruct (Ascii.eqb c ">") eqn:Hgt.
  { by rewrite IH. }
  by rewrite IH.
Qed.

Lemma occurs_app c s t : occurs c (s +:+ t) = occurs c s || occurs c t.
Proof.
  induction s as [|x s IH]; [done|].
  rewrite append_cons. simpl. rewrite IH. by rewrite orb_assoc.
Qed.

Lemma escapeEach_markup text :
  occurs "<" (escapeEach text) = false /\ occurs ">" (escapeEach text) = false.
Proof.
  induction text as [|c text [IHlt IHgt]]; [done|].
  simpl. rewrite !occurs_app, IHlt, IHgt, !orb_false_r. unfold escapeChar.
  destruct (Ascii.eqb c "&"); [done|].
  destruct (Ascii.eqb c "<") eqn:Hlt; [done|].
  destruct (Ascii.eqb c ">") eqn:Hgt; [done|].
  simpl. by rewrite Hlt, Hgt.
Qed.

Ltac escape_cases :=
  unfold escapeChar;
  repeat match goal with
         | |- context [Ascii.eqb ?c ?d] =>
             let H := fresh "Hc" in
             destruct (Ascii.eqb c d) eqn:H;
             [apply Ascii.eqb_eq in H; try subst c|apply Ascii.eqb_neq in H]
         end.

Lemma escapeEach_inj text : forall other, escapeEach other = escapeEach text -> other = text.
Proof.
  induction text as [|c text IH]; intros [|c' other]; simpl.
  - done.
  - escape_cases; rewrite ?append_cons; discriminate.
  - escape_cases; rewrite ?append_cons; discriminate.
  - escape_cases; rewrite ?append_cons, ?append_nil; intros H; simplify_eq;
      try congruence; f_equal; by apply IH.
Qed.

(** X16.  The text that the exported page shows for a message is the text of
    the message with every character escaped once, on its own: the three
    replacements of the source never escape what an earlier one produced.
    The result holds neither of the two angle brackets, and no text is
    lost: two messages with the same escaped text are the same message. *)
Theorem safeText_escapes text :
  safeText text = escapeEach text
  /\ occurs "<" (safeText text) = false
  /\ occurs ">" (safeText text) = false
  /\ forall other, safeText other = safeText text -> other = text.
Proof.
  rewrite safeText_each. destruct (escapeEach_markup text) as [Hlt Hgt].
  split_and!; try done.
  intros other. rewrite safeText_each. apply escapeEach_inj.
Qed.

(** ** The key field of the configuration panel *)

Ltac listed :=
  repeat first [apply list_elem_of_here | apply list_elem_of_further].

(** X17.  Typing a key into the panel stores the key as typed and the
    provider detected from it, and always leaves a model that the catalogue
    of that provider offers: the model selected before when the catalogue
    has it, the first model of the catalogue otherwise.  The roster, the
    topic, the turn limit and the global rules are not touched. *)
Theorem handleApiKeyChange_model key prev :
  let next := handleApiKeyChange key prev in
  let catalogue := map option_id (PROVIDER_MODEL_OPTIONS (detectProviderFromApiKey key)) in
  apiKey next = key
  /\ provider next = detectProviderFromApiKey key
  /\ model next ∈ catalogue
  /\ (model prev ∈ catalogue -> model next = model prev)
  /\ (model prev ∉ catalogue -> Some (model next) = head catalogue)
  /\ agents next = agents prev /\ topic next = topic prev
  /\ maxTurns next = maxTurns prev /\ globalRules next = globalRules prev.
Proof.
  unfold handleApiKeyChange.
  destruct (detectProviderFromApiKey key); simpl;
    repeat case_bool_decide; simpl;
    split_and!; try done; try (by listed).
  all: try (intros Hin; repeat (apply elem_of_cons in Hin as [Hin|Hin]; [congruence|]);
            by apply elem_of_nil in Hin).
  all: intros Hout; exfalso; apply Hout;
    match goal with H : _ = model _ |- _ => rewrite <- H end; by listed.
Qed.

End UiProps.
